(** * Forward-mode automatic differentiation by operator overloading

    A shallow embedding of the class [ADTangent] of
    [05Framework/02AutoDiff/05ForwardMode.ipynb] and of the cell that
    evaluates [f(x1,x2) = ln(x1) + x1*x2 - sin(x2)] with it.

    The Python program computes with three kinds of numbers: [int]
    (unbounded), [float] (IEEE-754 binary64) and [numpy.float64] (the same
    format, a subclass of [float]).  Binary64 is Rocq's primitive [float];
    its operations are the kernel's, so every sum, product and quotient below
    is bit-exact.  The three NumPy functions the class calls ([np.log],
    [np.sin], [np.cos]) belong to an external library: their binary64 loops
    are a parameter of the development (class [NumPy]).

    Instances of [ADTangent] live in a heap of attribute dictionaries; a
    method is a computation over that heap which returns a value or raises
    an exception. *)

From Stdlib Require Import ZArith QArith Qabs Floats Lia.
From stdpp Require Import base option list strings gmap.
From Stdlib Require Import Qpower Lqa Ascii.
From stdpp Require Import pretty.

(** ** Exceptions and results *)

(** The exception classes that occur.  [NotImplementedError] is listed
    because the class under study hands the class object itself back as a
    value.  [ValueError] is what the interpreter raises when an [int] has
    too many digits to be written in decimal. *)
Inductive exc_class : Set :=
  | ZeroDivisionError
  | OverflowError
  | TypeError
  | AttributeError
  | NameError
  | NotImplementedError
  | ValueError.

Inductive result (A : Type) : Type :=
  | Ok (a : A)
  | Raise (e : exc_class).
Arguments Ok {A} a.
Arguments Raise {A} e.

#[global] Instance result_ret : MRet result := fun A a => Ok a.
#[global] Instance result_bind : MBind result := fun A B k r =>
  match r with
  | Ok a => k a
  | Raise e => Raise e
  end.

(** ** Python numbers *)

Inductive num : Set :=
  | PyInt (n : Z)
  | PyFloat (f : float)
  | NpFloat64 (f : float).

(** The binary operators of the expression language. *)
Inductive binop : Set := Add | Sub | Mul | TrueDiv.

(** The binary64 nearest to an integer (ties to even), infinite when the
    integer is out of range. *)
Definition Z2F (z : Z) : float := SF2Prim (binary_normalize prec emax z 0 false).

(** An integer as an exact, unrounded operand of the specification-level
    division. *)
Definition Z2SF (z : Z) : spec_float :=
  match z with
  | Z0 => S754_zero false
  | Zpos p => S754_finite false p 0
  | Zneg p => S754_finite true p 0
  end.

(** [float(n)] as the arithmetic of [float] applies it to an [int] operand:
    [OverflowError] when [n] has no finite binary64 neighbour. *)
Definition int_to_float (n : Z) : result float :=
  let f := Z2F n in
  if is_infinity f then Raise OverflowError else Ok f.

Definition float_op (op : binop) : float -> float -> float :=
  match op with
  | Add => PrimFloat.add
  | Sub => PrimFloat.sub
  | Mul => PrimFloat.mul
  | TrueDiv => PrimFloat.div
  end.

(** [int op int]: exact on integers; [/] is true division, correctly
    rounded, and raises on a zero divisor or an overflowing quotient. *)
Definition int_op (op : binop) (m n : Z) : result num :=
  match op with
  | Add => Ok (PyInt (m + n))
  | Sub => Ok (PyInt (m - n))
  | Mul => Ok (PyInt (m * n))
  | TrueDiv =>
      if (n =? 0)%Z then Raise ZeroDivisionError
      else
        let q := SF2Prim (SFdiv prec emax (Z2SF m) (Z2SF n)) in
        if is_infinity q then Raise OverflowError else Ok (PyFloat q)
  end.

(** [float op float]: IEEE arithmetic; only division by zero raises. *)
Definition pyfloat_op (op : binop) (f g : float) : result num :=
  match op with
  | TrueDiv =>
      if (g =? 0)%float then Raise ZeroDivisionError else Ok (PyFloat (f / g)%float)
  | _ => Ok (PyFloat (float_op op f g))
  end.

(** An operation with a [numpy.float64] operand: IEEE arithmetic, never an
    exception (NumPy warns and returns inf or nan), result [numpy.float64]. *)
Definition npfloat_op (op : binop) (f g : float) : result num :=
  Ok (NpFloat64 (float_op op f g)).

(** [a op b] on numbers.  An [int] meeting a float is converted first, by
    [float(n)] for either kind of float. *)
Definition py_arith (op : binop) (a b : num) : result num :=
  match a, b with
  | PyInt m, PyInt n => int_op op m n
  | PyInt m, PyFloat g => f ← int_to_float m; pyfloat_op op f g
  | PyFloat f, PyInt n => g ← int_to_float n; pyfloat_op op f g
  | PyFloat f, PyFloat g => pyfloat_op op f g
  | PyInt m, NpFloat64 g => f ← int_to_float m; npfloat_op op f g
  | NpFloat64 f, PyInt n => g ← int_to_float n; npfloat_op op f g
  | PyFloat f, NpFloat64 g => npfloat_op op f g
  | NpFloat64 f, PyFloat g => npfloat_op op f g
  | NpFloat64 f, NpFloat64 g => npfloat_op op f g
  end.

(** ** NumPy *)

(** The binary64 loops of the three ufuncs the class uses. *)
Class NumPy : Type := {
  log64 : float -> float;
  sin64 : float -> float;
  cos64 : float -> float
}.

(** A ufunc applied to a Python scalar: a float goes through the binary64
    loop; an [int] is first stored as a 64-bit integer (signed, else
    unsigned) and cast, and an [int] that fits neither has no loop. *)
Definition ufunc (loop : float -> float) (a : num) : result num :=
  match a with
  | PyInt n =>
      if ((- 2 ^ 63 <=? n) && (n <? 2 ^ 64))%Z
      then Ok (NpFloat64 (loop (Z2F n)))
      else Raise TypeError
  | PyFloat f => Ok (NpFloat64 (loop f))
  | NpFloat64 f => Ok (NpFloat64 (loop f))
  end.

Module np.
Section WithNumPy.
Context `{NumPy}.
Definition log : num -> result num := ufunc log64.
Definition sin : num -> result num := ufunc sin64.
Definition cos : num -> result num := ufunc cos64.
End WithNumPy.
End np.

(** ** Values, heap, computations *)

(** What a variable or an operand can hold: a number, a reference to an
    [ADTangent] instance, an exception class, or [None] (standing for any
    object that supports no arithmetic). *)
Inductive value : Set :=
  | VNum (n : num)
  | VRef (l : nat)
  | VClass (c : exc_class)
  | VNone.

(** An instance is its attribute dictionary; the heap lists the instances in
    allocation order, and a reference is an index into it. *)
Abbreviation obj := (gmap string num).
Abbreviation heap := (list (gmap string num)).

(** A computation reads and extends the heap; the heap survives an
    exception. *)
Definition M (A : Type) : Type := heap -> result A * heap.

#[global] Instance M_ret : MRet M := fun A a h => (Ok a, h).
#[global] Instance M_bind : MBind M := fun A B k m h =>
  match m h with
  | (Ok a, h') => k a h'
  | (Raise e, h') => (Raise e, h')
  end.

Definition raise {A : Type} (e : exc_class) : M A := fun h => (Raise e, h).
Definition lift {A : Type} (r : result A) : M A := fun h => (r, h).

(** A fresh instance with an empty dictionary. *)
Definition alloc : M value := fun h => (Ok (VRef (length h)), h ++ [∅]).

(** [v.name]; only instances have the attributes [x] and [dx].  A
    reference beyond the heap denotes no object (no computation creates
    one) and is answered like an object without the attribute. *)
Definition getattr (v : value) (name : string) : M num := fun h =>
  match v with
  | VRef l =>
      match h !! l with
      | Some o =>
          match o !! name with
          | Some n => (Ok n, h)
          | None => (Raise AttributeError, h)
          end
      | None => (Raise AttributeError, h)
      end
  | _ => (Raise AttributeError, h)
  end.

(** [v.name = n]. *)
Definition setattr (v : value) (name : string) (n : num) : M unit := fun h =>
  match v with
  | VRef l =>
      match h !! l with
      | Some o => (Ok tt, <[l := <[name := n]> o]> h)
      | None => (Raise AttributeError, h)
      end
  | _ => (Raise AttributeError, h)
  end.

(** ** The class [ADTangent] *)

Module ADTangent.
Section WithNumPy.
Context `{NumPy}.

(** [def __init__(self, x, dx)]: the two attribute stores. *)
Definition __init__ (self : value) (x dx : num) : M unit :=
  _ ← setattr self "x" x;
  setattr self "dx" dx.

(** The call [ADTangent(x, dx)]: a fresh instance, initialised. *)
Definition new (x dx : num) : M value :=
  self ← alloc;
  _ ← __init__ self x dx;
  mret self.

(** [isinstance(other, ADTangent)]: every instance in the heap is one. *)
Definition isinstance_ADTangent (v : value) : bool :=
  match v with
  | VRef _ => true
  | _ => false
  end.

(** [isinstance(other, float)]: [float] and its subclass [numpy.float64],
    not [int]. *)
Definition isinstance_float (v : value) : bool :=
  match v with
  | VNum (PyFloat _) | VNum (NpFloat64 _) => true
  | _ => false
  end.

Definition __add__ (self other : value) : M value :=
  match other with
  | VRef _ =>                                   (* isinstance(other, ADTangent) *)
      sx ← getattr self "x"; ox ← getattr other "x";
      x ← lift (py_arith Add sx ox);
      sdx ← getattr self "dx"; odx ← getattr other "dx";
      dx ← lift (py_arith Add sdx odx);
      new x dx
  | VNum (PyFloat _ as c) | VNum (NpFloat64 _ as c) =>   (* isinstance(other, float) *)
      sx ← getattr self "x";
      x ← lift (py_arith Add sx c);
      dx ← getattr self "dx";
      new x dx
  | _ => mret (VClass NotImplementedError)      (* return NotImplementedError *)
  end.

Definition __sub__ (self other : value) : M value :=
  match other with
  | VRef _ =>
      sx ← getattr self "x"; ox ← getattr other "x";
      x ← lift (py_arith Sub sx ox);
      sdx ← getattr self "dx"; odx ← getattr other "dx";
      dx ← lift (py_arith Sub sdx odx);
      new x dx
  | VNum (PyFloat _ as c) | VNum (NpFloat64 _ as c) =>
      sx ← getattr self "x";
      x ← lift (py_arith Sub sx c);
      dx ← getattr self "dx";
      new x dx
  | _ => mret (VClass NotImplementedError)
  end.

Definition __mul__ (self other : value) : M value :=
  match other with
  | VRef _ =>
      sx ← getattr self "x"; ox ← getattr other "x";
      x ← lift (py_arith Mul sx ox);
      sx' ← getattr self "x"; odx ← getattr other "dx";
      l ← lift (py_arith Mul sx' odx);
      sdx ← getattr self "dx"; ox' ← getattr other "x";
      r ← lift (py_arith Mul sdx ox');
      dx ← lift (py_arith Add l r);
      new x dx
  | VNum (PyFloat _ as c) | VNum (NpFloat64 _ as c) =>
      sx ← getattr self "x";
      x ← lift (py_arith Mul sx c);
      sdx ← getattr self "dx";
      dx ← lift (py_arith Mul sdx c);
      new x dx
  | _ => mret (VClass NotImplementedError)
  end.

(** [x = np.log(self.x); dx = 1 / self.x * self.dx]. *)
Definition log (self : value) : M value :=
  sx ← getattr self "x";
  x ← lift (np.log sx);
  sx' ← getattr self "x";
  q ← lift (py_arith TrueDiv (PyInt 1) sx');
  sdx ← getattr self "dx";
  dx ← lift (py_arith Mul q sdx);
  new x dx.

(** [x = np.sin(self.x); dx = self.dx * np.cos(self.x)]. *)
Definition sin (self : value) : M value :=
  sx ← getattr self "x";
  x ← lift (np.sin sx);
  sdx ← getattr self "dx";
  sx' ← getattr self "x";
  c ← lift (np.cos sx');
  dx ← lift (py_arith Mul sdx c);
  new x dx.

(** What a name of the class body is bound to.  [__str__] renders an
    instance as text and takes no part in the arithmetic; only its name is
    recorded. *)
Inductive attribute : Type :=
  | Initialiser (m : value -> num -> num -> M unit)
  | Renderer
  | Binary (m : value -> value -> M value)
  | Unary (m : value -> M value).

(** The namespace of the class: the seven names its body defines. *)
Definition class_dict : gmap string attribute :=
  list_to_map
    [ ("__init__", Initialiser __init__);
      ("__str__", Renderer);
      ("__add__", Binary __add__);
      ("__sub__", Binary __sub__);
      ("__mul__", Binary __mul__);
      ("log", Unary log);
      ("sin", Unary sin) ].

(** [ADTangent.name]. *)
Definition class_getattr (name : string) : result attribute :=
  match class_dict !! name with
  | Some a => Ok a
  | None => Raise AttributeError
  end.
End WithNumPy.
End ADTangent.

(** ** Operators and expressions *)

Definition dunder (op : binop) : string :=
match op with
| Add => "__add__"
| Sub => "__sub__"
| Mul => "__mul__"
| TrueDiv => "__truediv__"
end.

Section Evaluation.
Context `{NumPy}.

(** [a op b]: the left operand's class decides.  An instance uses the
    method its class binds to the operator's name; numbers use their
    arithmetic among themselves.  Neither numbers, [None] nor a class
    object accept an instance or each other, and [ADTangent] defines no
    reflected method, so every other pairing is a [TypeError]. *)
Definition binary_op (op : binop) (a b : value) : M value :=
  match a with
  | VRef _ =>
      match ADTangent.class_dict !! dunder op with
      | Some (ADTangent.Binary m) => m a b
      | _ => raise TypeError
      end
  | VNum m =>
      match b with
      | VNum n => r ← lift (py_arith op m n); mret (VNum r)
      | _ => raise TypeError
      end
  | _ => raise TypeError
  end.

(** Expressions over the operator layer: variables (bound in an
    environment), numeric literals, the infix operators, and the calls
    [ADTangent.log(e)] and [ADTangent.sin(e)]. *)
Inductive expr : Set :=
  | Var (i : nat)
  | Lit (c : num)
  | BinOp (op : binop) (l r : expr)
  | Log (e : expr)
  | Sin (e : expr).

(** Operands are evaluated left to right. *)
Fixpoint eval (env : list value) (e : expr) : M value :=
  match e with
  | Var i =>
      match env !! i with
      | Some v => mret v
      | None => raise NameError
      end
  | Lit c => mret (VNum c)
  | BinOp op l r =>
      a ← eval env l;
      b ← eval env r;
      binary_op op a b
  | Log e => a ← eval env e; ADTangent.log a
  | Sin e => a ← eval env e; ADTangent.sin a
  end.

(** [f = ADTangent.log(x1) + x1 * x2 - ADTangent.sin(x2)]. *)
Definition f (x1 x2 : value) : M value :=
  a ← ADTangent.log x1;
  b ← binary_op Mul x1 x2;
  c ← binary_op Add a b;
  d ← ADTangent.sin x2;
  binary_op Sub c d.

(** The driver cell, with the two seeds as parameters. *)
Definition driver (x1 dx1 x2 dx2 : num) : M value :=
  x1 ← ADTangent.new x1 dx1;
  x2 ← ADTangent.new x2 dx2;
  f x1 x2.
End Evaluation.

(** The same expression as a term of [expr], over the environment
    [[x1; x2]]. *)
Definition f_expr : expr :=
  BinOp Sub (BinOp Add (Log (Var 0)) (BinOp Mul (Var 0) (Var 1))) (Sin (Var 1)).

(** ** Reading a result *)

(** The binary64 payload of a float of either kind. *)
Definition float_of (n : num) : option float :=
  match n with
  | PyInt _ => None
  | PyFloat f => Some f
  | NpFloat64 f => Some f
  end.

(** The dictionary [ADTangent(x, dx)] builds. *)
Definition instance (x dx : num) : obj := <["dx" := dx]> (<["x" := x]> ∅).

(** [v] refers, in heap [h], to an instance whose attributes [x] and [dx]
    hold the numbers [nx] and [ndx]. *)
Definition holds (h : heap) (v : value) (nx ndx : num) : Prop :=
  ∃ (l : nat) (o : obj),
    v = VRef l ∧ h !! l = Some o ∧ o !! "x" = Some nx ∧ o !! "dx" = Some ndx.

(** [v] is, in heap [h], a dual number: an instance whose attributes hold
    the floats [p] (primal) and [t] (tangent). *)
Definition dual_at (h : heap) (v : value) (p t : float) : Prop :=
  ∃ nx ndx : num,
    holds h v nx ndx ∧ float_of nx = Some p ∧ float_of ndx = Some t.

(** The outcome [out] of a computation started in heap [h] is a newly
    constructed dual number [(p, t)]: the heap gained one instance, the
    result refers to it, and nothing else changed. *)
Definition returns_new_dual (out : result value * heap) (h : heap) (p t : float) : Prop :=
  ∃ o : obj,
    out = (Ok (VRef (length h)), h ++ [o]) ∧
    dual_at (h ++ [o]) (VRef (length h)) p t.

(** The exact rational value of a finite float. *)
Definition F2Q (f : float) : option Q :=
  match Prim2SF f with
  | S754_zero _ => Some 0%Q
  | S754_finite s m e =>
      Some (inject_Z (cond_Zopp s (Zpos m)) * (2 ^ e)%Q)%Q
  | _ => None
  end.

(** [f] is finite and within [tol] of the rational [q]. *)
Definition close_to (tol q : Q) (f : float) : Prop :=
  ∃ r : Q, F2Q f = Some r ∧ (Qabs (r - q) < tol)%Q.

(** ** Reference values of the elementary functions

    The correctly rounded binary64 values of [ln 2], [ln 5], [sin 5] and
    [cos 5]. *)
Definition ln_2 : float := 0x1.62e42fefa39efp-1%float.
Definition ln_5 : float := 0x1.9c041f7ed8d33p+0%float.
Definition sin_5 : float := (-0x1.eaf81f5e09933p-1)%float.
Definition cos_5 : float := 0x1.22785706b4ad9p-2%float.

(** The floats at most [k] units in the last place away from [c]. *)
Definition ulp_ball (k : nat) (c : float) : list float :=
  c :: map (fun i => Nat.iter (S i) next_up c) (seq 0 k)
    ++ map (fun i => Nat.iter (S i) next_down c) (seq 0 k).

(** An implementation of NumPy is accurate at the arguments the driver
    reaches when its results there are within 4 units in the last place of
    the correctly rounded ones. *)
Definition accurate_at_driver_points `{NumPy} : Prop :=
  In (log64 2) (ulp_ball 4 ln_2) ∧
  In (sin64 5) (ulp_ball 4 sin_5) ∧
  In (cos64 5) (ulp_ball 4 cos_5).

(** Half a unit of the fourth decimal: the tolerance of a value quoted to
    four decimals. *)
Definition four_decimals : Q := 0.00005%Q.

(** ** A table of NumPy results

    The binary64 values NumPy returns at the arguments the closed examples
    below reach: the IEEE special cases of the logarithm, and the correctly
    rounded values at 1, 2 and 5.  Arguments outside the table are mapped
    to nan; no example relies on them. *)
Definition table_log (a : float) : float :=
  if (a <? 0)%float then nan
  else if (a =? 0)%float then neg_infinity
  else if (a =? 1)%float then 0%float
  else if (a =? 2)%float then ln_2
  else if (a =? 5)%float then ln_5
  else if (a =? infinity)%float then infinity
  else nan.

Definition table_sin (a : float) : float :=
  if (a =? 0)%float then a
  else if (a =? 5)%float then sin_5
  else nan.

Definition table_cos (a : float) : float :=
  if (a =? 0)%float then 1%float
  else if (a =? 5)%float then cos_5
  else nan.

Definition numpy_table : NumPy :=
  {| log64 := table_log; sin64 := table_sin; cos64 := table_cos |}.

(** ** Sample heaps for the closed examples *)

(** Two seeds with float tangents: [(2.0, 1.0)] and [(5.0, 0.0)]. *)
Definition two_seeds : heap :=
  [instance (PyFloat 2) (PyFloat 1); instance (PyFloat 5) (PyFloat 0)].

(** A single dual number [(p, t)] with Python-float attributes. *)
Definition one_dual (p t : float) : heap := [instance (PyFloat p) (PyFloat t)].

(** [1 / n] does not raise [ZeroDivisionError]: [n] is no Python zero.  A
    [numpy.float64] divisor never raises. *)
Definition divisible (n : num) : Prop :=
  match n with
  | PyInt m => m ≠ 0%Z
  | PyFloat f => (f =? 0)%float = false
  | NpFloat64 _ => True
  end.

(** [n] is a Python [int] or [float] equal to zero. *)
Definition python_zero (n : num) : Prop :=
  n = PyInt 0 ∨ ∃ f : float, n = PyFloat f ∧ (f =? 0)%float = true.

(** ** Effects on the heap *)

(** A computation that never touches the heap. *)
Definition read_only {A : Type} (m : M A) : Prop := ∀ h : heap, (m h).2 = h.

(** A computation that only ever adds instances. *)
Definition extends {A : Type} (m : M A) : Prop := ∀ h : heap, h `prefix_of` (m h).2.

(** The two outcomes a method can have on the heap [h]: nothing changed and
    the result (if any) is no instance; or exactly one instance was added
    and the result refers to it. *)
Definition unchanged_or_fresh (h : heap) (out : result value * heap) : Prop :=
  (out.2 = h ∧ ∀ l : nat, out.1 ≠ Ok (VRef l)) ∨
  (∃ o : obj, out = (Ok (VRef (length h)), h ++ [o])).




(** ** Comparing two runs *)

(** Two values look the same, each in its own heap: equal if they are not
    instances, and instances with the same attribute dictionary
    otherwise (their addresses may differ). *)
Definition same_view (h1 h2 : heap) (v1 v2 : value) : Prop :=
  match v1, v2 with
  | VRef l1, VRef l2 => ∃ o : obj, h1 !! l1 = Some o ∧ h2 !! l2 = Some o
  | VRef _, _ | _, VRef _ => False
  | _, _ => v1 = v2
  end.

(** Two runs end alike: the same exception, or results that look the same
    in the final heaps. *)
Definition same_outcome (out1 out2 : result value * heap) : Prop :=
  match out1.1, out2.1 with
  | Ok v1, Ok v2 => same_view out1.2 out2.2 v1 v2
  | Raise e1, Raise e2 => e1 = e2
  | _, _ => False
  end.

(** Two runs, started in [h1] and [h2], only add instances and end in
    results related by [R] (or in the same exception). *)
Definition sim {A : Type} (R : heap -> heap -> A -> A -> Prop)
    (h1 h2 : heap) (out1 out2 : result A * heap) : Prop :=
  h1 `prefix_of` out1.2 ∧ h2 `prefix_of` out2.2 ∧
  match out1.1, out2.1 with
  | Ok a1, Ok a2 => R out1.2 out2.2 a1 a2
  | Raise e1, Raise e2 => e1 = e2
  | _, _ => False
  end.

(** Equality of results that do not refer to the heap. *)
Definition same {A : Type} : heap -> heap -> A -> A -> Prop := fun _ _ a1 a2 => a1 = a2.

(** Every instance a variable of the environment refers to exists. *)
Definition bound_in (h : heap) (env : list value) : Prop :=
  Forall (fun v => match v with VRef l => is_Some (h !! l) | _ => True end) env.

(** The seeds of both passes of the driver side by side: [x1], [x2] seeded
    for the derivative in [x1], then [x1], [x2] seeded for the one in
    [x2]. *)
Definition four_seeds : heap :=
  [instance (PyFloat 2) (PyInt 1); instance (PyFloat 5) (PyInt 0);
   instance (PyFloat 2) (PyInt 0); instance (PyFloat 5) (PyInt 1)].

(** ** Instances and their invariant *)

(** An instance is initialised when both attributes are bound. *)
Definition initialised (o : obj) : Prop := is_Some (o !! "x") ∧ is_Some (o !! "dx").

(** Every instance of the heap is initialised. *)
Definition well_formed (h : heap) : Prop := Forall initialised h.

(** A reference points to an instance of the heap; any other value is
    bound as it is. *)
Definition bound (h : heap) (v : value) : Prop :=
  match v with
  | VRef l => is_Some (h !! l)
  | _ => True
  end.

(** The two outcomes of a method on the heap [h], with the new instance
    spelled out: nothing changed and the result is no instance, or the
    instance [ADTangent(x, dx)] was added and returned. *)
Definition unchanged_or_constructed (h : heap) (out : result value * heap) : Prop :=
  (out.2 = h ∧ ∀ l : nat, out.1 ≠ Ok (VRef l)) ∨
  (∃ x dx : num, out = (Ok (VRef (length h)), h ++ [instance x dx])).

(** The exceptions of a computation all satisfy [P]. *)
Definition raises_only {A : Type} (P : exc_class -> Prop) (m : M A) : Prop :=
  ∀ (h : heap) (e : exc_class), (m h).1 = Raise e -> P e.

(** The exceptions the arithmetic and the attribute reads can end in. *)
Definition primitive_error (e : exc_class) : Prop :=
  e = ZeroDivisionError ∨ e = OverflowError ∨ e = TypeError ∨ e = AttributeError.

(** The number of operator applications and calls in an expression. *)
Fixpoint operations (e : expr) : nat :=
  match e with
  | Var _ | Lit _ => 0
  | BinOp _ l r => S (operations l + operations r)
  | Log e | Sin e => S (operations e)
  end.

(** Every variable of the expression is below [n]. *)
Fixpoint closed (n : nat) (e : expr) : Prop :=
  match e with
  | Var i => i < n
  | Lit _ => True
  | BinOp _ l r => closed n l ∧ closed n r
  | Log e | Sin e => closed n e
  end.

(** ** Polynomials over integer seeds *)

(** An expression built from variables with [+], [-] and [*] only. *)
Fixpoint polynomial (e : expr) : Prop :=
  match e with
  | Var _ => True
  | BinOp op l r => op ≠ TrueDiv ∧ polynomial l ∧ polynomial r
  | _ => False
  end.

(** The value of a polynomial at the integer point [ps]. *)
Fixpoint value_at (ps : list Z) (e : expr) : Z :=
  match e with
  | Var i => default 0%Z (ps !! i)
  | BinOp Add l r => value_at ps l + value_at ps r
  | BinOp Sub l r => value_at ps l - value_at ps r
  | BinOp Mul l r => value_at ps l * value_at ps r
  | _ => 0
  end.

(** Its partial derivative in the variable [j] at [ps], by the rules of
    calculus. *)
Fixpoint partial (j : nat) (ps : list Z) (e : expr) : Z :=
  match e with
  | Var i => if decide (i = j) then 1 else 0
  | BinOp Add l r => partial j ps l + partial j ps r
  | BinOp Sub l r => partial j ps l - partial j ps r
  | BinOp Mul l r => value_at ps l * partial j ps r + partial j ps l * value_at ps r
  | _ => 0
  end.

(** [ts_0 * f j + ts_1 * f (j+1) + ...]. *)
Fixpoint weighted (f : nat -> Z) (j : nat) (ts : list Z) : Z :=
  match ts with
  | [] => 0
  | t :: ts' => t * f j + weighted f (S j) ts'
  end.

(** The derivative of a polynomial at [ps] along the direction [ts]: the
    partial derivatives weighted by the components of the direction. *)
Definition directional (ps ts : list Z) (e : expr) : Z :=
  weighted (fun j => partial j ps e) 0 ts.

(** The variables of [env] are instances with integer attributes: the
    [i]-th has primal [(ρ !! i).1] and tangent [(ρ !! i).2]. *)
Definition integer_seeds (h : heap) (env : list value) (ρ : list (Z * Z)) : Prop :=
  Forall2 (fun v pt => holds h v (PyInt pt.1) (PyInt pt.2)) env ρ.

(** ** Text: the rendering [__str__]

    [__str__] builds [f'value:{self.x:.4f}, grad:{self.dx}'].  The format
    [.4f] is defined here exactly: the decimal with four fractional digits
    nearest to the exact binary value, ties to the even digit.  The other
    conversion, the shortest text that reads back as the same float
    ([repr] of a float), belongs to the interpreter and is a parameter.
    So is the interpreter's limit on the decimal digits of an [int] it
    converts to text, [sys.get_int_max_str_digits()]: 4300 unless
    configured, and 0 where there is no limit (the limit is switched off,
    or the interpreter predates it).
    This is the body of the method the class namespace lists by name. *)
Class Builtins : Type := {
  float_repr : float -> string;
  int_max_str_digits : Z
}.

(** The integer nearest to [a / d] for [d > 0], ties to even. *)
Definition div_nearest_even (a d : Z) : Z :=
  let q := (a / d)%Z in
  match (2 * (a mod d) ?= d)%Z with
  | Lt => q
  | Gt => (q + 1)%Z
  | Eq => if Z.even q then q else (q + 1)%Z
  end.

(** The integer nearest to [m * 2^e * 10^4], ties to even. *)
Definition ten_thousandths (m : positive) (e : Z) : Z :=
  if (0 <=? e)%Z then (Zpos m * 2 ^ e * 10000)%Z
  else div_nearest_even (Zpos m * 10000) (2 ^ (- e)).

(** Four decimal digits, leading zeros included. *)
Definition four_digits (r : N) : string :=
  String (pretty_N_char (r / 1000 mod 10))
    (String (pretty_N_char (r / 100 mod 10))
       (String (pretty_N_char (r / 10 mod 10))
          (String (pretty_N_char (r mod 10)) ""))).

(** [n] ten-thousandths written with a decimal point. *)
Definition fixed4 (n : N) : string :=
  pretty (n / 10000)%N +:+ "." +:+ four_digits (n mod 10000).

Definition sign_text (s : bool) : string := if s then "-" else "".

(** [format(f, '.4f')] for a float. *)
Definition format_4f_float (f : float) : string :=
  match Prim2SF f with
  | S754_nan => "nan"
  | S754_infinity s => sign_text s +:+ "inf"
  | S754_zero s => sign_text s +:+ fixed4 0
  | S754_finite s m e => sign_text s +:+ fixed4 (Z.to_N (ten_thousandths m e))
  end.

(** [format(n, '.4f')]: an [int] is converted to a float first. *)
Definition format_4f (n : num) : result string :=
  match n with
  | PyInt z => f ← int_to_float z; Ok (format_4f_float f)
  | PyFloat f => Ok (format_4f_float f)
  | NpFloat64 f => Ok (format_4f_float f)
  end.

(** An [int] has more decimal digits than the interpreter converts to
    text: the limit is on, and [z] has more digits than it allows. *)
Definition exceeds_str_digits `{Builtins} (z : Z) : bool :=
  (0 <? int_max_str_digits)%Z && (10 ^ int_max_str_digits <=? Z.abs z)%Z.

(** [format(n, '')], that is [str(n)]: the decimal digits of an [int], or
    [ValueError] when they are more than the interpreter's limit; the
    interpreter's [repr] of a float of either kind. *)
Definition format_plain `{Builtins} (n : num) : result string :=
  match n with
  | PyInt z => if exceeds_str_digits z then Raise ValueError else Ok (pretty z)
  | PyFloat f => Ok (float_repr f)
  | NpFloat64 f => Ok (float_repr f)
  end.

Module Render.
Section WithBuiltins.
Context `{Builtins}.

(** [def __str__(self)]: the replacement fields are evaluated and
    formatted from left to right. *)
Definition __str__ (self : value) : M string :=
  sx ← getattr self "x";
  v ← lift (format_4f sx);
  sdx ← getattr self "dx";
  g ← lift (format_plain sdx);
  mret ("value:" +:+ v +:+ ", grad:" +:+ g).
End WithBuiltins.
End Render.

(** *** Reading a decimal back *)

Definition digit_of (c : ascii) : option N :=
  let n := N_of_ascii c in
  if ((48 <=? n) && (n <=? 57))%N then Some (n - 48)%N else None.

(** Reads digits with at most one decimal point; returns the digits as a
    number and, if a point was seen, how many digits followed it. *)
Fixpoint read_decimal (acc : N) (frac : option nat) (s : string) : option (N * option nat) :=
  match s with
  | EmptyString => Some (acc, frac)
  | String c s' =>
      if Ascii.eqb c "." then
        match frac with
        | None => read_decimal acc (Some 0) s'
        | Some _ => None
        end
      else
        match digit_of c with
        | Some d => read_decimal (10 * acc + d) (S <$> frac) s'
        | None => None
        end
  end.

(** The rational a signed decimal with a point denotes. *)
Definition read_fixed (s : string) : option Q :=
  let '(neg, body) :=
    match s with
    | String c s' => if Ascii.eqb c "-" then (true, s') else (false, s)
    | EmptyString => (false, s)
    end in
  match read_decimal 0 None body with
  | Some (n, Some k) =>
      Some (inject_Z (cond_Zopp neg (Z.of_N n)) / inject_Z (10 ^ Z.of_nat k))%Q
  | _ => None
  end.

(** A stand-in for the interpreter, enough for the closed examples: of
    [repr] it knows how 5.5 is written and answers [?] elsewhere; the limit
    on digits is the default one. *)
Definition repr_sample : Builtins :=
  {| float_repr := fun f => if (f =? 5.5)%float then "5.5" else "?";
     int_max_str_digits := 4300 |}.

(** * Properties *)

(** ** The heap primitives *)

Lemma bind_ok {A B : Type} (m : M A) (k : A -> M B) (h h' : heap) (a : A) :
  m h = (Ok a, h') -> (m ≫= k) h = k a h'.
Proof. intros E. unfold mbind, M_bind. now rewrite E. Qed.

Lemma bind_raise {A B : Type} (m : M A) (k : A -> M B) (h h' : heap) (e : exc_class) :
  m h = (Raise e, h') -> (m ≫= k) h = (Raise e, h').
Proof. intros E. unfold mbind, M_bind. now rewrite E. Qed.

Lemma lift_ok {A : Type} (r : result A) (a : A) (h : heap) :
  r = Ok a -> lift r h = (Ok a, h).
Proof. now intros ->. Qed.

Lemma new_spec (x dx : num) (h : heap) :
  ADTangent.new x dx h = (Ok (VRef (length h)), h ++ [instance x dx]).
Proof.
  unfold ADTangent.new, ADTangent.__init__, alloc, setattr, mbind, M_bind, mret, M_ret.
  rewrite (list_lookup_middle h [] ∅ (length h) eq_refl).
  rewrite insert_app_r_alt by lia. rewrite Nat.sub_diag. cbn [insert list_insert].
  rewrite (list_lookup_middle h [] _ (length h) eq_refl).
  rewrite insert_app_r_alt by lia. rewrite Nat.sub_diag. reflexivity.
Qed.

Lemma holds_new (x dx : num) (h : heap) :
  holds (h ++ [instance x dx]) (VRef (length h)) x dx.
Proof.
  exists (length h), (instance x dx). split; [reflexivity|].
  split; [apply list_lookup_middle; reflexivity|].
  unfold instance. split.
  - rewrite lookup_insert_ne by discriminate. apply lookup_insert_eq.
  - apply lookup_insert_eq.
Qed.

Lemma getattr_x (h : heap) (v : value) (nx ndx : num) :
  holds h v nx ndx -> getattr v "x" h = (Ok nx, h).
Proof. intros (l & o & -> & Hl & Hx & _). unfold getattr. now rewrite Hl, Hx. Qed.

Lemma getattr_dx (h : heap) (v : value) (nx ndx : num) :
  holds h v nx ndx -> getattr v "dx" h = (Ok ndx, h).
Proof. intros (l & o & -> & Hl & _ & Hdx). unfold getattr. now rewrite Hl, Hdx. Qed.

Lemma holds_is_ref (h : heap) (v : value) (nx ndx : num) :
  holds h v nx ndx -> ∃ l, v = VRef l.
Proof. intros (l & o & -> & _). now exists l. Qed.

(** ** Arithmetic on floats of either kind *)

Lemma py_arith_floats (op : binop) (a b : num) (f g : float) :
  op ≠ TrueDiv -> float_of a = Some f -> float_of b = Some g ->
  ∃ r, py_arith op a b = Ok r ∧ float_of r = Some (float_op op f g).
Proof.
  intros Hop Ha Hb.
  destruct a as [m|f'|f'], b as [n|g'|g']; simplify_eq/=;
    destruct op; try congruence; eexists; split; reflexivity.
Qed.

(** Builds the outcome of [ADTangent(x, dx)] from the payloads of its
    arguments. *)
Lemma new_returns_dual (x dx : num) (p t : float) (h : heap) :
  float_of x = Some p -> float_of dx = Some t ->
  returns_new_dual (ADTangent.new x dx h) h p t.
Proof.
  intros Hx Hdx. exists (instance x dx). split; [apply new_spec|].
  exists x, dx. split; [apply holds_new|]. now split.
Qed.

(** Runs the attribute reads and the arithmetic of a method body. *)
Ltac run_step :=
  first
    [ erewrite bind_ok by (eapply getattr_x; eassumption)
    | erewrite bind_ok by (eapply getattr_dx; eassumption)
    | erewrite bind_ok by (apply lift_ok; eassumption) ].

Ltac float_arith op Ha Hb r Hr Hf :=
  destruct (py_arith_floats op _ _ _ _ ltac:(discriminate) Ha Hb) as (r & Hr & Hf).

(** C1. For dual numbers [a] and [b], [mul(a,b)] returns a new dual number
    with primal [a.primal*b.primal] and tangent
    [a.primal*b.tangent + a.tangent*b.primal]; for a float constant [c],
    [mul(a,c)] returns a new dual number with primal [a.primal*c] and
    tangent [a.tangent*c]. *)
Theorem mul_product_rule (h : heap) (a : value) (pa ta : float) :
  dual_at h a pa ta ->
  (∀ (b : value) (pb tb : float), dual_at h b pb tb ->
     returns_new_dual (ADTangent.__mul__ a b h) h
       (pa * pb)%float (pa * tb + ta * pb)%float) ∧
  (∀ (n : num) (c : float), float_of n = Some c ->
     returns_new_dual (ADTangent.__mul__ a (VNum n) h) h
       (pa * c)%float (ta * c)%float).
Proof.
  intros (ax & adx & Ha & Hax & Hadx). split.
  - intros b pb tb (bx & bdx & Hb & Hbx & Hbdx).
    destruct (holds_is_ref _ _ _ _ Hb) as (lb & ->).
    float_arith Mul Hax Hbx x Hx Hfx.
    float_arith Mul Hax Hbdx l Hl Hfl.
    float_arith Mul Hadx Hbx r Hr Hfr.
    float_arith Add Hfl Hfr dx Hdx Hfdx.
    unfold ADTangent.__mul__. repeat run_step.
    now apply new_returns_dual.
  - intros n c Hn.
    float_arith Mul Hax Hn x Hx Hfx.
    float_arith Mul Hadx Hn dx Hdx Hfdx.
    unfold ADTangent.__mul__.
    destruct n as [m|g|g]; [discriminate| |]; repeat run_step;
      now apply new_returns_dual.
Qed.

Lemma dual_at_instance (h : heap) (l : nat) (x dx : num) (p t : float) :
  h !! l = Some (instance x dx) ->
  float_of x = Some p -> float_of dx = Some t ->
  dual_at h (VRef l) p t.
Proof.
  intros Hl Hx Hdx. exists x, dx. split; [|now split].
  exists l, (instance x dx). split; [reflexivity|]. split; [exact Hl|].
  unfold instance. split.
  - rewrite lookup_insert_ne by discriminate. apply lookup_insert_eq.
  - apply lookup_insert_eq.
Defined.

Lemma mul_product_rule_witness :
  returns_new_dual (ADTangent.__mul__ (VRef 0) (VRef 1) two_seeds) two_seeds 10 5 ∧
  returns_new_dual (ADTangent.__mul__ (VRef 0) (VNum (PyFloat 3)) two_seeds) two_seeds 6 3.
Proof.
  assert (Ha : dual_at two_seeds (VRef 0) 2 1)
    by (eapply dual_at_instance; reflexivity).
  assert (Hb : dual_at two_seeds (VRef 1) 5 0)
    by (eapply dual_at_instance; reflexivity).
  destruct (mul_product_rule two_seeds (VRef 0) 2 1 Ha) as [Hdual Hconst].
  split.
  - exact (Hdual (VRef 1) 5%float 0%float Hb).
  - exact (Hconst (PyFloat 3) 3%float eq_refl).
Defined.

(** C2. For dual numbers [a] and [b], [add(a,b)] returns a dual number with
    primal [a.primal+b.primal] and tangent [a.tangent+b.tangent], and
    [sub(a,b)] one with primal [a.primal-b.primal] and tangent
    [a.tangent-b.tangent]; for a float constant [c], [add(a,c)] returns
    primal [a.primal+c] and [sub(a,c)] primal [a.primal-c], each with tangent
    [a.tangent]. *)
Theorem add_sub_rules (h : heap) (a : value) (pa ta : float) :
  dual_at h a pa ta ->
  (∀ (b : value) (pb tb : float), dual_at h b pb tb ->
     returns_new_dual (ADTangent.__add__ a b h) h (pa + pb)%float (ta + tb)%float ∧
     returns_new_dual (ADTangent.__sub__ a b h) h (pa - pb)%float (ta - tb)%float) ∧
  (∀ (n : num) (c : float), float_of n = Some c ->
     returns_new_dual (ADTangent.__add__ a (VNum n) h) h (pa + c)%float ta ∧
     returns_new_dual (ADTangent.__sub__ a (VNum n) h) h (pa - c)%float ta).
Proof.
  intros (ax & adx & Ha & Hax & Hadx). split.
  - intros b pb tb (bx & bdx & Hb & Hbx & Hbdx).
    destruct (holds_is_ref _ _ _ _ Hb) as (lb & ->).
    float_arith Add Hax Hbx x Hx Hfx.
    float_arith Add Hadx Hbdx dx Hdx Hfdx.
    float_arith Sub Hax Hbx x' Hx' Hfx'.
    float_arith Sub Hadx Hbdx dx' Hdx' Hfdx'.
    split.
    + unfold ADTangent.__add__. repeat run_step. now apply new_returns_dual.
    + unfold ADTangent.__sub__. repeat run_step. now apply new_returns_dual.
  - intros n c Hn.
    float_arith Add Hax Hn x Hx Hfx.
    float_arith Sub Hax Hn x' Hx' Hfx'.
    split.
    + unfold ADTangent.__add__.
      destruct n as [m|g|g]; [discriminate| |]; repeat run_step;
        now apply new_returns_dual.
    + unfold ADTangent.__sub__.
      destruct n as [m|g|g]; [discriminate| |]; repeat run_step;
        now apply new_returns_dual.
Qed.

Lemma add_sub_rules_witness :
  (returns_new_dual (ADTangent.__add__ (VRef 0) (VRef 1) two_seeds) two_seeds 7 1 ∧
   returns_new_dual (ADTangent.__sub__ (VRef 0) (VRef 1) two_seeds) two_seeds (-3) 1) ∧
  (returns_new_dual (ADTangent.__add__ (VRef 0) (VNum (PyFloat 3)) two_seeds) two_seeds 5 1 ∧
   returns_new_dual (ADTangent.__sub__ (VRef 0) (VNum (PyFloat 3)) two_seeds) two_seeds (-1) 1).
Proof.
  assert (Ha : dual_at two_seeds (VRef 0) 2 1)
    by (eapply dual_at_instance; reflexivity).
  assert (Hb : dual_at two_seeds (VRef 1) 5 0)
    by (eapply dual_at_instance; reflexivity).
  destruct (add_sub_rules two_seeds (VRef 0) 2 1 Ha) as [Hdual Hconst].
  split.
  - exact (Hdual (VRef 1) 5%float 0%float Hb).
  - exact (Hconst (PyFloat 3) 3%float eq_refl).
Defined.

(** ** The elementary functions *)

Lemma ufunc_float (loop : float -> float) (a : num) (f : float) :
  float_of a = Some f -> ufunc loop a = Ok (NpFloat64 (loop f)).
Proof. destruct a; intros [= <-]; reflexivity. Qed.

Lemma int_to_float_1 : int_to_float 1 = Ok 1%float.
Proof. reflexivity. Qed.

(** The reciprocal [1 / n] of a float that is no Python zero. *)
Lemma reciprocal_float (n : num) (p : float) :
  float_of n = Some p -> divisible n ->
  ∃ q, py_arith TrueDiv (PyInt 1) n = Ok q ∧ float_of q = Some (1 / p)%float.
Proof.
  destruct n as [m|g|g]; intros [= <-] Hd; cbn [py_arith];
    rewrite int_to_float_1; cbn [mbind result_bind].
  - cbn [pyfloat_op]. cbn in Hd. rewrite Hd. eexists; split; reflexivity.
  - eexists; split; reflexivity.
Qed.

(** A float below zero is not equal to zero. *)
Lemma ltb_0_not_eqb_0 (p : float) : (p <? 0)%float = true -> (p =? 0)%float = false.
Proof.
  rewrite FloatAxioms.ltb_spec, FloatAxioms.eqb_spec. change (Prim2SF 0) with (S754_zero false).
  destruct (Prim2SF p) as [s|s| |s m e]; try destruct s; cbn; congruence.
Qed.

Lemma eqb_0_divisible (n : num) (p : float) :
  float_of n = Some p -> (p =? 0)%float = false -> divisible n.
Proof. destruct n; intros [= <-] Hp; cbn; auto. Qed.

Section Elementary.
Context `{NumPy}.

(** [log] on an instance with float attributes whose primal is no Python
    zero: the tangent is the reciprocal of the primal times the tangent. *)
Lemma log_returns (h : heap) (a : value) (nx ndx : num) (p t : float) :
  holds h a nx ndx -> float_of nx = Some p -> float_of ndx = Some t ->
  divisible nx ->
  returns_new_dual (ADTangent.log a h) h (log64 p) (1 / p * t)%float.
Proof.
  intros Ha Hx Hdx Hd.
  destruct (reciprocal_float nx p Hx Hd) as (q & Hq & Hfq).
  float_arith Mul Hfq Hdx dx Hm Hfdx.
  pose proof (ufunc_float log64 nx p Hx) as Hlog.
  unfold ADTangent.log, np.log. repeat run_step.
  now apply new_returns_dual.
Qed.

Lemma sin_returns (h : heap) (a : value) (nx ndx : num) (p t : float) :
  holds h a nx ndx -> float_of nx = Some p -> float_of ndx = Some t ->
  returns_new_dual (ADTangent.sin a h) h (sin64 p) (t * cos64 p)%float.
Proof.
  intros Ha Hx Hdx.
  pose proof (ufunc_float sin64 nx p Hx) as Hsin.
  pose proof (ufunc_float cos64 nx p Hx) as Hcos.
  assert (Hc : float_of (NpFloat64 (cos64 p)) = Some (cos64 p)) by reflexivity.
  float_arith Mul Hdx Hc dx Hm Hfdx.
  unfold ADTangent.sin, np.sin, np.cos. repeat run_step.
  now apply new_returns_dual.
Qed.

(** [log] on an instance whose primal is a Python zero: the division
    [1 / self.x] raises, after [np.log] has returned. *)
Lemma log_python_zero (h : heap) (a : value) (nx ndx : num) :
  holds h a nx ndx -> python_zero nx ->
  ADTangent.log a h = (Raise ZeroDivisionError, h).
Proof.
  intros Ha Hz. unfold ADTangent.log, np.log.
  destruct Hz as [-> | (f & -> & Hf)].
  - run_step. erewrite bind_ok by (apply lift_ok; reflexivity). run_step.
    reflexivity.
  - run_step. erewrite bind_ok by (apply lift_ok; reflexivity). run_step.
    apply bind_raise. unfold lift. cbn [py_arith]. rewrite int_to_float_1.
    cbn [mbind result_bind pyfloat_op]. now rewrite Hf.
Qed.

(** C3 (amended). For every dual number [a] with nonzero primal, [log(a)]
    returns a new dual number with primal [np.log(a.primal)] and tangent
    [(1 / a.primal) * a.tangent], the reciprocal of the primal times the
    tangent; for every dual number [a], [sin(a)] returns a new dual number
    with primal [np.sin(a.primal)] and tangent
    [a.tangent * np.cos(a.primal)]. *)
Theorem log_sin_rules (h : heap) (a : value) (p t : float) :
  dual_at h a p t ->
  ((p =? 0)%float = false ->
   returns_new_dual (ADTangent.log a h) h (log64 p) (1 / p * t)%float) ∧
  returns_new_dual (ADTangent.sin a h) h (sin64 p) (t * cos64 p)%float.
Proof.
  intros (nx & ndx & Ha & Hx & Hdx). split.
  - intros Hp. eapply log_returns; eauto using eqb_0_divisible.
  - eapply sin_returns; eauto.
Qed.

(** C6 (amended). [log(a)] raises [ZeroDivisionError] when [a.primal] is a
    Python [int] or [float] equal to zero; when [a.primal] is a negative
    float it raises nothing and returns a new dual number with primal
    [np.log(a.primal)] and tangent [(1 / a.primal) * a.tangent]. *)
Theorem log_outside_domain (h : heap) (a : value) (nx ndx : num) :
  holds h a nx ndx ->
  (python_zero nx -> ADTangent.log a h = (Raise ZeroDivisionError, h)) ∧
  (∀ p t : float, float_of nx = Some p -> float_of ndx = Some t ->
     (p <? 0)%float = true ->
     returns_new_dual (ADTangent.log a h) h (log64 p) (1 / p * t)%float).
Proof.
  intros Ha. split.
  - intros Hz. exact (log_python_zero h a nx ndx Ha Hz).
  - intros p t Hx Hdx Hneg. eapply log_returns; eauto.
    eapply eqb_0_divisible; eauto using ltb_0_not_eqb_0.
Qed.
End Elementary.

Lemma holds_instance (h : heap) (l : nat) (x dx : num) :
  h !! l = Some (instance x dx) -> holds h (VRef l) x dx.
Proof.
  intros Hl. exists l, (instance x dx). split; [reflexivity|]. split; [exact Hl|].
  unfold instance. split.
  - rewrite lookup_insert_ne by discriminate. apply lookup_insert_eq.
  - apply lookup_insert_eq.
Qed.

Lemma float_neq (f g : float) : Prim2SF f ≠ Prim2SF g -> f ≠ g.
Proof. intros Hne ->. now apply Hne. Qed.

Lemma log_sin_rules_witness :
  returns_new_dual (@ADTangent.log numpy_table (VRef 0) (one_dual 5 3)) (one_dual 5 3)
    ln_5 (1 / 5 * 3)%float ∧
  returns_new_dual (@ADTangent.sin numpy_table (VRef 0) (one_dual 5 3)) (one_dual 5 3)
    sin_5 (3 * cos_5)%float.
Proof.
  assert (Ha : dual_at (one_dual 5 3) (VRef 0) 5 3)
    by (eapply dual_at_instance; reflexivity).
  destruct (@log_sin_rules numpy_table (one_dual 5 3) (VRef 0) 5%float 3%float Ha)
    as [Hlog Hsin].
  split.
  - exact (Hlog eq_refl).
  - exact Hsin.
Defined.

(** C3, as stated, fails: at the dual number [(5.0, 3.0)] the tangent of
    [log] is [(1/5.0)*3.0 = 0.6000000000000001], not the quotient
    [3.0/5.0 = 0.6].  The gap is not bounded by rounding: at the smallest
    positive float the reciprocal overflows, so the code's expression
    [1 / p * p] is infinite while the quotient [p / p] is 1. *)
Lemma log_tangent_is_not_the_quotient :
  returns_new_dual (@ADTangent.log numpy_table (VRef 0) (one_dual 5 3)) (one_dual 5 3)
    ln_5 0x1.3333333333334p-1%float ∧
  0x1.3333333333334p-1%float ≠ (3 / 5)%float ∧
  (q ← py_arith TrueDiv (PyInt 1) (PyFloat 0x1p-1074);
   py_arith Mul q (PyFloat 0x1p-1074)) = Ok (PyFloat infinity) ∧
  py_arith TrueDiv (PyFloat 0x1p-1074) (PyFloat 0x1p-1074) = Ok (PyFloat 1).
Proof.
  split; [|split; [|split]].
  - exists (instance (NpFloat64 ln_5) (PyFloat 0x1.3333333333334p-1)). split.
    + vm_compute. reflexivity.
    + eapply dual_at_instance; reflexivity.
  - apply float_neq. vm_compute. discriminate.
  - reflexivity.
  - reflexivity.
Qed.

Lemma log_outside_domain_witness :
  @ADTangent.log numpy_table (VRef 0) (one_dual 0 1)
    = (Raise ZeroDivisionError, one_dual 0 1) ∧
  returns_new_dual (@ADTangent.log numpy_table (VRef 0) (one_dual (-1) 1))
    (one_dual (-1) 1) nan (-1).
Proof.
  assert (Hz : holds (one_dual 0 1) (VRef 0) (PyFloat 0) (PyFloat 1))
    by (apply holds_instance; reflexivity).
  assert (Hn : holds (one_dual (-1) 1) (VRef 0) (PyFloat (-1)) (PyFloat 1))
    by (apply holds_instance; reflexivity).
  split.
  - apply (proj1 (@log_outside_domain numpy_table _ _ _ _ Hz)).
    right. exists 0%float. split; reflexivity.
  - exact (proj2 (@log_outside_domain numpy_table _ _ _ _ Hn)
             (-1)%float 1%float eq_refl eq_refl eq_refl).
Defined.

(** C6, as stated, fails: at the dual number [(-1.0, 1.0)], [log] raises
    nothing and returns the dual number [(nan, -1.0)], whose tangent is
    finite. *)
Lemma log_of_negative_returns :
  @ADTangent.log numpy_table (VRef 0) (one_dual (-1) 1)
    = (Ok (VRef 1), one_dual (-1) 1 ++ [instance (NpFloat64 nan) (PyFloat (-1))]) ∧
  is_finite (-1) = true.
Proof.
  split.
  - vm_compute. reflexivity.
  - reflexivity.
Qed.

(** ** The driver *)

Section Driver.
Context `{NumPy}.

(** The pass seeded for [x1]: the result in terms of the three NumPy
    values it reads. *)
Lemma driver_wrt_x1 :
  ∃ h : heap,
    driver (PyFloat 2) (PyInt 1) (PyFloat 5) (PyInt 0) [] = (Ok (VRef 6), h) ∧
    dual_at h (VRef 6) (log64 2 + 10 - sin64 5)%float (5.5 - 0 * cos64 5)%float.
Proof.
  eexists. split.
  - vm_compute. reflexivity.
  - eapply dual_at_instance; reflexivity.
Qed.

(** The pass seeded for [x2]. *)
Lemma driver_wrt_x2 :
  ∃ h : heap,
    driver (PyFloat 2) (PyInt 0) (PyFloat 5) (PyInt 1) [] = (Ok (VRef 6), h) ∧
    dual_at h (VRef 6) (log64 2 + 10 - sin64 5)%float (2 - 1 * cos64 5)%float.
Proof.
  eexists. split.
  - vm_compute. reflexivity.
  - eapply dual_at_instance; reflexivity.
Qed.
End Driver.

(** Splits membership in an explicit list of floats into its cases. *)
Ltac each_float H :=
  vm_compute in H;
  repeat (destruct H as [H | H]; [symmetry in H; subst | ]);
  try contradiction.

Ltac close_by_computation :=
  eexists; split; [vm_compute; reflexivity | vm_compute; reflexivity].

Lemma primal_close (l s : float) :
  In l (ulp_ball 4 ln_2) -> In s (ulp_ball 4 sin_5) ->
  close_to four_decimals 11.6521%Q (l + 10 - s)%float.
Proof. intros Hl Hs. each_float Hl; each_float Hs; close_by_computation. Qed.

Lemma tangent_wrt_x1 (c : float) :
  In c (ulp_ball 4 cos_5) -> (5.5 - 0 * c)%float = 5.5%float.
Proof. intros Hc. each_float Hc; reflexivity. Qed.

Lemma tangent_wrt_x2 (c : float) :
  In c (ulp_ball 4 cos_5) -> close_to four_decimals 1.7163%Q (2 - 1 * c)%float.
Proof. intros Hc. each_float Hc; close_by_computation. Qed.

(** C4. With NumPy accurate at the three arguments the driver reaches, the
    driver seeded [x1 = ADTangent(2.0, 1)], [x2 = ADTangent(5.0, 0)] yields
    a dual number whose primal is 11.6521 to four decimals and whose
    tangent is 5.5; seeded with tangents 0 and 1 it yields the same primal
    and a tangent that is 1.7163 to four decimals. *)
Theorem driver_example `{NumPy} :
  accurate_at_driver_points ->
  ∃ (h1 h2 : heap) (v1 v2 : value) (p t1 t2 : float),
    driver (PyFloat 2) (PyInt 1) (PyFloat 5) (PyInt 0) [] = (Ok v1, h1) ∧
    dual_at h1 v1 p t1 ∧
    driver (PyFloat 2) (PyInt 0) (PyFloat 5) (PyInt 1) [] = (Ok v2, h2) ∧
    dual_at h2 v2 p t2 ∧
    close_to four_decimals 11.6521%Q p ∧
    t1 = 5.5%float ∧
    close_to four_decimals 1.7163%Q t2.
Proof.
  intros (Hlog & Hsin & Hcos).
  destruct driver_wrt_x1 as (h1 & Hrun1 & Hdual1).
  destruct driver_wrt_x2 as (h2 & Hrun2 & Hdual2).
  exists h1, h2, (VRef 6), (VRef 6), (log64 2 + 10 - sin64 5)%float,
    (5.5 - 0 * cos64 5)%float, (2 - 1 * cos64 5)%float.
  repeat split; try assumption.
  - now apply primal_close.
  - now apply tangent_wrt_x1.
  - now apply tangent_wrt_x2.
Qed.

Lemma driver_example_witness :
  ∃ (h1 h2 : heap) (v1 v2 : value) (p t1 t2 : float),
    @driver numpy_table (PyFloat 2) (PyInt 1) (PyFloat 5) (PyInt 0) [] = (Ok v1, h1) ∧
    dual_at h1 v1 p t1 ∧
    @driver numpy_table (PyFloat 2) (PyInt 0) (PyFloat 5) (PyInt 1) [] = (Ok v2, h2) ∧
    dual_at h2 v2 p t2 ∧
    close_to four_decimals 11.6521%Q p ∧
    t1 = 5.5%float ∧
    close_to four_decimals 1.7163%Q t2.
Proof.
  apply (@driver_example numpy_table).
  repeat split; left; reflexivity.
Defined.

(** ** Operands the methods do not accept *)

(** The last branch of the three binary methods: an operand that is neither
    an instance nor a float is answered with the class object
    [NotImplementedError], as a value; [self] is not even read. *)
Lemma rejected_operand (self other : value) (h : heap) :
  ADTangent.isinstance_ADTangent other = false ->
  ADTangent.isinstance_float other = false ->
  ADTangent.__add__ self other h = (Ok (VClass NotImplementedError), h) ∧
  ADTangent.__sub__ self other h = (Ok (VClass NotImplementedError), h) ∧
  ADTangent.__mul__ self other h = (Ok (VClass NotImplementedError), h).
Proof.
  destruct other as [[n|g|g]|l|c|]; cbn; try discriminate; intros _ _;
    repeat split; reflexivity.
Qed.

Section Operators.
Context `{NumPy}.

(** An infix operator whose left operand is an instance runs the method of
    that name. *)
Lemma binary_op_method (l : nat) (b : value) :
  binary_op Add (VRef l) b = ADTangent.__add__ (VRef l) b ∧
  binary_op Sub (VRef l) b = ADTangent.__sub__ (VRef l) b ∧
  binary_op Mul (VRef l) b = ADTangent.__mul__ (VRef l) b.
Proof. repeat split; reflexivity. Qed.

Lemma class_dict_truediv : ADTangent.class_dict !! "__truediv__" = None.
Proof. vm_compute. reflexivity. Qed.

(** The class binds no [__truediv__], and no operand offers a reflected
    division that accepts an instance. *)
Lemma binary_op_truediv (l : nat) (b : value) (h : heap) :
  binary_op TrueDiv (VRef l) b h = (Raise TypeError, h).
Proof. unfold binary_op. cbn [dunder]. now rewrite class_dict_truediv. Qed.

(** C5 (the code at the failing input). With [None] as right operand, the
    operators [+], [-] and [*] on an instance raise nothing: the outcome is
    an ordinary value, the class object [NotImplementedError]. *)
Theorem none_operand_is_returned_not_raised (l : nat) (h : heap) :
  binary_op Add (VRef l) VNone h = (Ok (VClass NotImplementedError), h) ∧
  binary_op Sub (VRef l) VNone h = (Ok (VClass NotImplementedError), h) ∧
  binary_op Mul (VRef l) VNone h = (Ok (VClass NotImplementedError), h).
Proof.
  destruct (binary_op_method l VNone) as (-> & -> & ->).
  now apply rejected_operand.
Qed.

(** C10. For every instance [a] and Python integer [n], [a + n], [a - n]
    and [a * n] take the last branch of the method, not the float branch
    ([isinstance(n, float)] is false), and that branch returns the class
    [NotImplementedError] itself as the result of the operation. *)
Theorem int_operand_returns_the_class (l : nat) (n : Z) (h : heap) :
  ADTangent.isinstance_float (VNum (PyInt n)) = false ∧
  binary_op Add (VRef l) (VNum (PyInt n)) h = (Ok (VClass NotImplementedError), h) ∧
  binary_op Sub (VRef l) (VNum (PyInt n)) h = (Ok (VClass NotImplementedError), h) ∧
  binary_op Mul (VRef l) (VNum (PyInt n)) h = (Ok (VClass NotImplementedError), h).
Proof.
  split; [reflexivity|].
  destruct (binary_op_method l (VNum (PyInt n))) as (-> & -> & ->).
  now apply rejected_operand.
Qed.

(** C7 (amended). The class binds exactly seven names: [__init__],
    [__str__], [__add__], [__sub__], [__mul__], [log] and [sin].  It has no
    division and no [cos] or [exp]: [a / b] on an instance [a] raises
    [TypeError] whatever [b] is, and looking up [cos] or [exp] on the class
    raises [AttributeError]. *)
Theorem operator_layer_is_add_sub_mul_log_sin :
  dom ADTangent.class_dict
    = list_to_set ["__init__"; "__str__"; "__add__"; "__sub__"; "__mul__"; "log"; "sin"] ∧
  (∀ (l : nat) (b : value) (h : heap),
     binary_op TrueDiv (VRef l) b h = (Raise TypeError, h)) ∧
  ADTangent.class_getattr "cos" = Raise AttributeError ∧
  ADTangent.class_getattr "exp" = Raise AttributeError.
Proof.
  split; [vm_compute; reflexivity|]. split.
  - apply binary_op_truediv.
  - split; vm_compute; reflexivity.
Qed.
End Operators.

(** C7, as stated, fails: dividing the seed [(2.0, 1.0)] by the seed
    [(5.0, 0.0)] raises [TypeError] instead of returning a dual number, and
    the class has neither [cos] nor [exp]. *)
Lemma division_cos_exp_are_missing :
  @binary_op numpy_table TrueDiv (VRef 0) (VRef 1) two_seeds = (Raise TypeError, two_seeds) ∧
  @ADTangent.class_getattr numpy_table "cos" = Raise AttributeError ∧
  @ADTangent.class_getattr numpy_table "exp" = Raise AttributeError.
Proof. repeat split; vm_compute; reflexivity. Qed.

(** ** Frame: the methods only allocate *)

Lemma getattr_read_only (v : value) (name : string) : read_only (getattr v name).
Proof.
  intros h. unfold getattr. destruct v as [n|l|c|]; try reflexivity.
  destruct (h !! l) as [o|]; [|reflexivity]. now destruct (o !! name).
Qed.

Lemma lift_read_only {A : Type} (r : result A) : read_only (lift r).
Proof. intros h. reflexivity. Qed.

Lemma new_fresh (x dx : num) (h : heap) : unchanged_or_fresh h (ADTangent.new x dx h).
Proof. right. exists (instance x dx). apply new_spec. Qed.

Lemma bind_unchanged_or_fresh {A : Type} (m : M A) (k : A -> M value) (h : heap) :
  read_only m ->
  (∀ a : A, unchanged_or_fresh h (k a h)) ->
  unchanged_or_fresh h ((m ≫= k) h).
Proof.
  intros Hm Hk. unfold mbind, M_bind. specialize (Hm h).
  destruct (m h) as [[a|e] h']; cbn in Hm; subst h'.
  - apply Hk.
  - left. split; [reflexivity|]. intros l. discriminate.
Qed.

Lemma ret_class_unchanged (c : exc_class) (h : heap) :
  unchanged_or_fresh h ((mret (VClass c) : M value) h).
Proof. left. split; [reflexivity|]. intros l. discriminate. Qed.

(** Walks through a method body: reads and arithmetic leave the heap alone,
    the final construction adds the result. *)
Ltac frame_steps :=
  repeat (apply bind_unchanged_or_fresh;
          [ first [apply getattr_read_only | apply lift_read_only] | intros ? ]);
  first [apply new_fresh | apply ret_class_unchanged].


Section Frame.
Context `{NumPy}.

Lemma binary_methods_fresh (self other : value) (h : heap) :
  unchanged_or_fresh h (ADTangent.__add__ self other h) ∧
  unchanged_or_fresh h (ADTangent.__sub__ self other h) ∧
  unchanged_or_fresh h (ADTangent.__mul__ self other h).
Proof.
  unfold ADTangent.__add__, ADTangent.__sub__, ADTangent.__mul__.
  destruct other as [[n|g|g]|l|c|]; repeat split; frame_steps.
Qed.

Lemma unary_methods_fresh (self : value) (h : heap) :
  unchanged_or_fresh h (ADTangent.log self h) ∧
  unchanged_or_fresh h (ADTangent.sin self h).
Proof. unfold ADTangent.log, ADTangent.sin. split; frame_steps. Qed.


End Frame.




(** ** Two runs of the same expression *)

Lemma same_view_mono (h1 h2 h1' h2' : heap) (v1 v2 : value) :
  h1 `prefix_of` h1' -> h2 `prefix_of` h2' ->
  same_view h1 h2 v1 v2 -> same_view h1' h2' v1 v2.
Proof.
  intros P1 P2. destruct v1, v2; cbn; try tauto.
  intros (o & H1 & H2). exists o. eauto using prefix_lookup_Some.
Qed.

Lemma sim_bind {A B : Type} (RA : heap -> heap -> A -> A -> Prop)
    (RB : heap -> heap -> B -> B -> Prop)
    (m1 m2 : M A) (k1 k2 : A -> M B) (h1 h2 : heap) :
  sim RA h1 h2 (m1 h1) (m2 h2) ->
  (∀ a1 a2 h1' h2', h1 `prefix_of` h1' -> h2 `prefix_of` h2' -> RA h1' h2' a1 a2 ->
     sim RB h1' h2' (k1 a1 h1') (k2 a2 h2')) ->
  sim RB h1 h2 ((m1 ≫= k1) h1) ((m2 ≫= k2) h2).
Proof.
  unfold sim, mbind, M_bind. intros (P1 & P2 & HR) Hk.
  destruct (m1 h1) as [[a1|e1] h1'], (m2 h2) as [[a2|e2] h2']; cbn in *;
    try contradiction.
  - destruct (Hk a1 a2 h1' h2' P1 P2 HR) as (Q1 & Q2 & HB).
    split; [now transitivity h1'|]. split; [now transitivity h2'|]. exact HB.
  - auto.
Qed.

Lemma sim_ret {A : Type} (R : heap -> heap -> A -> A -> Prop) (a1 a2 : A) (h1 h2 : heap) :
  R h1 h2 a1 a2 -> sim R h1 h2 ((mret a1 : M A) h1) ((mret a2 : M A) h2).
Proof. intros HR. split; [reflexivity|]. split; [reflexivity|]. exact HR. Qed.

Lemma sim_raise {A : Type} (R : heap -> heap -> A -> A -> Prop) (e : exc_class) (h1 h2 : heap) :
  sim R h1 h2 (raise e h1) (raise e h2).
Proof. split; [reflexivity|]. split; reflexivity. Qed.

Lemma sim_lift {A : Type} (r : result A) (h1 h2 : heap) :
  sim same h1 h2 (lift r h1) (lift r h2).
Proof. split; [reflexivity|]. split; [reflexivity|]. now destruct r. Qed.

Lemma sim_getattr (v1 v2 : value) (name : string) (h1 h2 : heap) :
  same_view h1 h2 v1 v2 ->
  sim same h1 h2 (getattr v1 name h1) (getattr v2 name h2).
Proof.
  intros Hv. split; [now rewrite getattr_read_only|].
  split; [now rewrite getattr_read_only|].
  destruct v1, v2; cbn in Hv; try contradiction; try reflexivity.
  destruct Hv as (o & H1 & H2). unfold getattr. rewrite H1, H2.
  now destruct (o !! name).
Qed.

Lemma sim_new (x dx : num) (h1 h2 : heap) :
  sim same_view h1 h2 (ADTangent.new x dx h1) (ADTangent.new x dx h2).
Proof.
  rewrite !new_spec. split; [now apply prefix_app_r|].
  split; [now apply prefix_app_r|].
  exists (instance x dx). split; now apply list_lookup_middle.
Qed.

(** Moves what is known about the operands to the grown heaps. *)
Ltac lift_views P1 P2 :=
  repeat match goal with
  | Hv : same_view ?h1 _ _ _ |- _ =>
      lazymatch type of P1 with
      | h1 `prefix_of` _ => apply (same_view_mono _ _ _ _ _ _ P1 P2) in Hv
      end
  end.

(** One statement of a method body, run on both sides. *)
Ltac sim_step :=
  eapply sim_bind;
  [ first [ apply sim_getattr; assumption | apply sim_lift ]
  | let P1 := fresh "P" in
    let P2 := fresh "P" in
    let E := fresh "E" in
    intros ? ? ? ? P1 P2 E; red in E; subst;
    lift_views P1 P2; clear P1 P2 ].

Ltac sim_steps := repeat sim_step; apply sim_new.

Section Simulation.
Context `{NumPy}.

Lemma sim_binary_methods (s1 s2 o1 o2 : value) (h1 h2 : heap) :
  same_view h1 h2 s1 s2 -> same_view h1 h2 o1 o2 ->
  sim same_view h1 h2 (ADTangent.__add__ s1 o1 h1) (ADTangent.__add__ s2 o2 h2) ∧
  sim same_view h1 h2 (ADTangent.__sub__ s1 o1 h1) (ADTangent.__sub__ s2 o2 h2) ∧
  sim same_view h1 h2 (ADTangent.__mul__ s1 o1 h1) (ADTangent.__mul__ s2 o2 h2).
Proof.
  intros Hs Ho.
  unfold ADTangent.__add__, ADTangent.__sub__, ADTangent.__mul__.
  destruct o1 as [[n|g|g]|l1|c1|], o2 as [[n'|g'|g']|l2|c2|];
    try (cbn in Ho; first [contradiction | discriminate]);
    try (injection Ho as <-);
    (split; [|split]);
    first [ now apply sim_ret | sim_steps ].
Qed.

Lemma sim_unary_methods (s1 s2 : value) (h1 h2 : heap) :
  same_view h1 h2 s1 s2 ->
  sim same_view h1 h2 (ADTangent.log s1 h1) (ADTangent.log s2 h2) ∧
  sim same_view h1 h2 (ADTangent.sin s1 h1) (ADTangent.sin s2 h2).
Proof.
  intros Hs. unfold ADTangent.log, ADTangent.sin. split; sim_steps.
Qed.
End Simulation.

Section Runs.
Context `{NumPy}.

Lemma sim_binary_op (op : binop) (a1 a2 b1 b2 : value) (h1 h2 : heap) :
  same_view h1 h2 a1 a2 -> same_view h1 h2 b1 b2 ->
  sim same_view h1 h2 (binary_op op a1 b1 h1) (binary_op op a2 b2 h2).
Proof.
  intros Ha Hb.
  destruct a1 as [m|l1|c1|], a2 as [m'|l2|c2|];
    try (cbn in Ha; first [contradiction | discriminate]);
    try (injection Ha as <-).
  - destruct b1 as [n|k1|d1|], b2 as [n'|k2|d2|];
      try (cbn in Hb; first [contradiction | discriminate]);
      try (injection Hb as <-); try apply sim_raise.
    cbn [binary_op]. eapply sim_bind; [apply sim_lift|].
    intros r1 r2 h1' h2' _ _ E. red in E. subst r2. now apply sim_ret.
  - destruct (sim_binary_methods _ _ _ _ _ _ Ha Hb) as (Hadd & Hsub & Hmul).
    destruct op.
    + now rewrite !(proj1 (binary_op_method _ _)).
    + now rewrite !(proj1 (proj2 (binary_op_method _ _))).
    + now rewrite !(proj2 (proj2 (binary_op_method _ _))).
    + rewrite !binary_op_truediv. split; [reflexivity|]. split; reflexivity.
  - apply sim_raise.
  - apply sim_raise.
Qed.

Lemma same_view_env_mono (h1 h2 h1' h2' : heap) (env1 env2 : list value) :
  h1 `prefix_of` h1' -> h2 `prefix_of` h2' ->
  Forall2 (same_view h1 h2) env1 env2 -> Forall2 (same_view h1' h2') env1 env2.
Proof.
  intros P1 P2 Henv. eapply Forall2_impl; [exact Henv|].
  intros v1 v2. now apply same_view_mono.
Qed.

(** The outcome of an evaluation is determined by what the variables look
    like, not by where the instances live nor by what else the heap holds. *)
Lemma eval_sim (e : expr) (env1 env2 : list value) :
  ∀ h1 h2 : heap,
    Forall2 (same_view h1 h2) env1 env2 ->
    sim same_view h1 h2 (eval env1 e h1) (eval env2 e h2).
Proof.
  induction e as [i|c|op l IHl r IHr|e IH|e IH]; intros h1 h2 Henv; cbn [eval].
  - destruct (env1 !! i) as [v1|] eqn:E1.
    + destruct (Forall2_lookup_l _ _ _ i v1 Henv E1) as (v2 & -> & Hv).
      now apply sim_ret.
    + assert (env2 !! i = None) as ->.
      { apply lookup_ge_None. rewrite <- (Forall2_length _ _ _ Henv).
        now apply lookup_ge_None. }
      apply sim_raise.
  - now apply sim_ret.
  - eapply sim_bind; [now apply IHl|].
    intros a1 a2 h1' h2' P1 P2 Ha.
    eapply sim_bind; [apply IHr; eauto using same_view_env_mono|].
    intros b1 b2 h1'' h2'' Q1 Q2 Hb.
    apply sim_binary_op; eauto using same_view_mono.
  - eapply sim_bind; [now apply IH|].
    intros a1 a2 h1' h2' _ _ Ha. now apply sim_unary_methods.
  - eapply sim_bind; [now apply IH|].
    intros a1 a2 h1' h2' _ _ Ha. now apply sim_unary_methods.
Qed.

Lemma sim_same_outcome (h1 h2 : heap) (out1 out2 : result value * heap) :
  sim same_view h1 h2 out1 out2 -> same_outcome out1 out2.
Proof. now intros (_ & _ & HR). Qed.

Lemma unchanged_or_fresh_prefix (h : heap) (out : result value * heap) :
  unchanged_or_fresh h out -> h `prefix_of` out.2.
Proof.
  intros [[-> _] | (o & ->)]; [reflexivity|]. now apply prefix_app_r.
Qed.

Lemma bind_extends {A B : Type} (m : M A) (k : A -> M B) :
  extends m -> (∀ a, extends (k a)) -> extends (m ≫= k).
Proof.
  intros Hm Hk h. specialize (Hm h). unfold mbind, M_bind.
  destruct (m h) as [[a|e] h']; cbn in *; [|exact Hm].
  transitivity h'; [exact Hm | apply Hk].
Qed.

Lemma binary_op_extends (op : binop) (a b : value) : extends (binary_op op a b).
Proof.
  intros h. destruct a as [m|l|c|]; try reflexivity.
  - destruct b as [n|k|d|]; try reflexivity.
    cbn [binary_op]. unfold mbind, M_bind, lift. now destruct (py_arith op m n).
  - destruct (binary_methods_fresh (VRef l) b h) as (Hadd & Hsub & Hmul).
    destruct op.
    + rewrite (proj1 (binary_op_method _ _)).
      now apply unchanged_or_fresh_prefix.
    + rewrite (proj1 (proj2 (binary_op_method _ _))).
      now apply unchanged_or_fresh_prefix.
    + rewrite (proj2 (proj2 (binary_op_method _ _))).
      now apply unchanged_or_fresh_prefix.
    + now rewrite binary_op_truediv.
Qed.

(** An evaluation only adds instances to the heap. *)
Lemma eval_extends (env : list value) (e : expr) : extends (eval env e).
Proof.
  induction e as [i|c|op l IHl r IHr|e IH|e IH]; cbn [eval].
  - intros h. now destruct (env !! i).
  - intros h. reflexivity.
  - apply bind_extends; [exact IHl|]. intros a.
    apply bind_extends; [exact IHr|]. intros b. apply binary_op_extends.
  - apply bind_extends; [exact IH|]. intros a h.
    apply unchanged_or_fresh_prefix, unary_methods_fresh.
  - apply bind_extends; [exact IH|]. intros a h.
    apply unchanged_or_fresh_prefix, unary_methods_fresh.
Qed.

Lemma bound_in_same_view (h h' : heap) (env : list value) :
  bound_in h env -> h `prefix_of` h' -> Forall2 (same_view h h') env env.
Proof.
  intros Hb P. apply Forall_Forall2_diag. eapply Forall_impl; [exact Hb|].
  intros [n|l|c|]; cbn; try reflexivity.
  intros (o & Hl). exists o. eauto using prefix_lookup_Some.
Qed.

(** C8. Evaluation has no hidden state.  For every expression whose
    variables are bound to existing seeds: (1) evaluating it with seeds that
    look the same, in any other heap, ends in the same exception or in a
    result with the same primal and tangent; (2) so does evaluating it a
    second time; (3) so does evaluating it after any other pass (another
    expression, other seeds) has run. *)
Theorem evaluation_has_no_hidden_state
    (e e' : expr) (env env' : list value) (h : heap) :
  bound_in h env ->
  (∀ (env2 : list value) (h2 : heap),
     Forall2 (same_view h h2) env env2 ->
     same_outcome (eval env e h) (eval env2 e h2)) ∧
  same_outcome (eval env e h) (eval env e (eval env e h).2) ∧
  same_outcome (eval env e h) (eval env e (eval env' e' h).2).
Proof.
  intros Hb. split; [|split].
  - intros env2 h2 Henv. eapply sim_same_outcome, eval_sim, Henv.
  - eapply sim_same_outcome, eval_sim, bound_in_same_view, eval_extends. exact Hb.
  - eapply sim_same_outcome, eval_sim, bound_in_same_view, eval_extends. exact Hb.
Qed.
End Runs.

(** The driver's expression is the term [f_expr]. *)
Lemma f_expr_is_f `{NumPy} (x1 x2 : value) (h : heap) :
  eval [x1; x2] f_expr h = f x1 x2 h.
Proof.
  unfold f, f_expr. cbn [eval lookup list_lookup].
  unfold mbind, M_bind, mret, M_ret.
  destruct (ADTangent.log x1 h) as [[a|e] h1]; [|reflexivity].
  destruct (binary_op Mul x1 x2 h1) as [[b|e] h2]; [|reflexivity].
  destruct (binary_op Add a b h2) as [[c|e] h3]; [|reflexivity].
  now destruct (ADTangent.sin x2 h3) as [[d|e] h4].
Qed.

Lemma evaluation_has_no_hidden_state_witness :
  (∀ (env2 : list value) (h2 : heap),
     Forall2 (same_view four_seeds h2) [VRef 0; VRef 1] env2 ->
     same_outcome (@eval numpy_table [VRef 0; VRef 1] f_expr four_seeds)
       (@eval numpy_table env2 f_expr h2)) ∧
  same_outcome (@eval numpy_table [VRef 0; VRef 1] f_expr four_seeds)
    (@eval numpy_table [VRef 0; VRef 1] f_expr
       (@eval numpy_table [VRef 0; VRef 1] f_expr four_seeds).2) ∧
  same_outcome (@eval numpy_table [VRef 0; VRef 1] f_expr four_seeds)
    (@eval numpy_table [VRef 0; VRef 1] f_expr
       (@eval numpy_table [VRef 2; VRef 3] f_expr four_seeds).2).
Proof.
  apply (@evaluation_has_no_hidden_state numpy_table).
  repeat constructor; eexists; reflexivity.
Defined.

(** ** Commutativity *)

Lemma SFadd_comm (x y : spec_float) : SFadd prec emax x y = SFadd prec emax y x.
Proof.
  destruct x as [sx|sx| |sx mx ex], y as [sy|sy| |sy my ey];
    try reflexivity; try (destruct sx, sy; reflexivity).
  cbn [SFadd]. now rewrite Z.min_comm, Z.add_comm.
Qed.

Lemma SFmul_comm (x y : spec_float) : SFmul prec emax x y = SFmul prec emax y x.
Proof.
  destruct x as [sx|sx| |sx mx ex], y as [sy|sy| |sy my ey];
    try reflexivity; cbn [SFmul]; try now rewrite xorb_comm.
  now rewrite xorb_comm, Pos.mul_comm, Z.add_comm.
Qed.

Lemma float_add_comm (f g : float) : (f + g = g + f)%float.
Proof.
  apply Prim2SF_inj. rewrite !add_spec. apply SFadd_comm.
Qed.

Lemma float_mul_comm (f g : float) : (f * g = g * f)%float.
Proof.
  apply Prim2SF_inj. rewrite !mul_spec. apply SFmul_comm.
Qed.

Lemma py_arith_add_comm (a b : num) : py_arith Add a b = py_arith Add b a.
Proof.
  destruct a as [m|f|f], b as [n|g|g]; cbn [py_arith int_op];
    try (now rewrite Z.add_comm);
    try (destruct (int_to_float _); cbn; try reflexivity);
    unfold npfloat_op; cbn [pyfloat_op float_op]; now rewrite float_add_comm.
Qed.

Lemma py_arith_mul_comm (a b : num) : py_arith Mul a b = py_arith Mul b a.
Proof.
  destruct a as [m|f|f], b as [n|g|g]; cbn [py_arith int_op];
    try (now rewrite Z.mul_comm);
    try (destruct (int_to_float _); cbn; try reflexivity);
    unfold npfloat_op; cbn [pyfloat_op float_op]; now rewrite float_mul_comm.
Qed.

(** Addition and multiplication of numbers raise nothing but
    [OverflowError] (an [int] too large to meet a float). *)
Lemma py_arith_raises_overflow (op : binop) (a b : num) (e : exc_class) :
  op ≠ TrueDiv -> py_arith op a b = Raise e -> e = OverflowError.
Proof.
  intros Hop.
  unfold py_arith, int_to_float, pyfloat_op, npfloat_op, int_op, mbind, result_bind.
  destruct op; try congruence;
    destruct a as [m|f|f], b as [n|g|g];
    repeat match goal with
    | |- context [is_infinity ?z] => destruct (is_infinity z)
    end; congruence.
Qed.

(** Reads the attributes of the two operands of a binary method. *)
Ltac read_attrs :=
  repeat first
    [ erewrite bind_ok by (eapply getattr_x; eassumption)
    | erewrite bind_ok by (eapply getattr_dx; eassumption) ].

(** Decides the next arithmetic step of a method body: its value, or the
    exception it ends the method with. *)
Ltac arith_step :=
  match goal with
  | |- context [py_arith ?op ?a ?b] =>
      destruct (py_arith op a b);
      [ erewrite bind_ok by (apply lift_ok; reflexivity)
      | erewrite bind_raise by reflexivity; reflexivity ]
  end.

(** The binary methods on two instances, with the attribute reads
    resolved: the arithmetic on the four attributes, in the order of the
    source, then the construction of the result. *)
Lemma add_on_instances (h : heap) (a b : value) (ax adx bx bdx : num) :
  holds h a ax adx -> holds h b bx bdx ->
  ADTangent.__add__ a b h =
    match py_arith Add ax bx with
    | Raise e => (Raise e, h)
    | Ok x =>
        match py_arith Add adx bdx with
        | Raise e => (Raise e, h)
        | Ok dx => ADTangent.new x dx h
        end
    end.
Proof.
  intros Ha Hb. destruct (holds_is_ref _ _ _ _ Hb) as (lb & ->).
  unfold ADTangent.__add__. read_attrs. arith_step. read_attrs. arith_step.
  reflexivity.
Qed.

Lemma sub_on_instances (h : heap) (a b : value) (ax adx bx bdx : num) :
  holds h a ax adx -> holds h b bx bdx ->
  ADTangent.__sub__ a b h =
    match py_arith Sub ax bx with
    | Raise e => (Raise e, h)
    | Ok x =>
        match py_arith Sub adx bdx with
        | Raise e => (Raise e, h)
        | Ok dx => ADTangent.new x dx h
        end
    end.
Proof.
  intros Ha Hb. destruct (holds_is_ref _ _ _ _ Hb) as (lb & ->).
  unfold ADTangent.__sub__. read_attrs. arith_step. read_attrs. arith_step.
  reflexivity.
Qed.

Lemma mul_on_instances (h : heap) (a b : value) (ax adx bx bdx : num) :
  holds h a ax adx -> holds h b bx bdx ->
  ADTangent.__mul__ a b h =
    match py_arith Mul ax bx with
    | Raise e => (Raise e, h)
    | Ok x =>
        match py_arith Mul ax bdx with
        | Raise e => (Raise e, h)
        | Ok l =>
            match py_arith Mul adx bx with
            | Raise e => (Raise e, h)
            | Ok r =>
                match py_arith Add l r with
                | Raise e => (Raise e, h)
                | Ok dx => ADTangent.new x dx h
                end
            end
        end
    end.
Proof.
  intros Ha Hb. destruct (holds_is_ref _ _ _ _ Hb) as (lb & ->).
  unfold ADTangent.__mul__. read_attrs. arith_step. read_attrs. arith_step.
  read_attrs. arith_step. arith_step. reflexivity.
Qed.

(** X1. On instances, [+] and [*] commute: [a + b] and [b + a] (and
    [a * b] and [b * a]) end in the same outcome, the same exception or a
    new instance with the same attributes (equal as binary64 values; the
    model has one nan, so the payload of a nan is not compared). *)
Theorem add_mul_commute (h : heap) (a b : value) (ax adx bx bdx : num) :
  holds h a ax adx -> holds h b bx bdx ->
  ADTangent.__add__ a b h = ADTangent.__add__ b a h ∧
  ADTangent.__mul__ a b h = ADTangent.__mul__ b a h.
Proof.
  intros Ha Hb. split.
  - rewrite (add_on_instances h a b _ _ _ _ Ha Hb),
            (add_on_instances h b a _ _ _ _ Hb Ha).
    now rewrite (py_arith_add_comm bx ax), (py_arith_add_comm bdx adx).
  - rewrite (mul_on_instances h a b _ _ _ _ Ha Hb),
            (mul_on_instances h b a _ _ _ _ Hb Ha).
    rewrite (py_arith_mul_comm bx ax), (py_arith_mul_comm bx adx),
            (py_arith_mul_comm bdx ax).
    destruct (py_arith Mul ax bx) as [x|e]; [|reflexivity].
    destruct (py_arith Mul ax bdx) as [l|el] eqn:El,
             (py_arith Mul adx bx) as [r|er] eqn:Er; try reflexivity.
    + now rewrite (py_arith_add_comm r l).
    + apply py_arith_raises_overflow in El, Er; try discriminate. now subst.
Qed.

Lemma add_mul_commute_witness :
  ADTangent.__add__ (VRef 0) (VRef 1) four_seeds
    = ADTangent.__add__ (VRef 1) (VRef 0) four_seeds ∧
  ADTangent.__mul__ (VRef 0) (VRef 1) four_seeds
    = ADTangent.__mul__ (VRef 1) (VRef 0) four_seeds.
Proof.
  apply (add_mul_commute four_seeds (VRef 0) (VRef 1)
           (PyFloat 2) (PyInt 1) (PyFloat 5) (PyInt 0));
    apply holds_instance; reflexivity.
Defined.

(** ** Composition *)

Lemma dual_at_app (h k : heap) (v : value) (p t : float) :
  dual_at h v p t -> dual_at (h ++ k) v p t.
Proof.
  intros (nx & ndx & (l & o & -> & Hl & Hx & Hdx) & Hp & Ht).
  exists nx, ndx. split; [|now split].
  exists l, o. split; [reflexivity|]. split; [now apply lookup_app_l_Some|].
  now split.
Qed.

(** The three binary methods on float dual numbers, for composition. *)
Lemma binary_on_duals (h : heap) (a b : value) (pa ta pb tb : float) :
  dual_at h a pa ta -> dual_at h b pb tb ->
  returns_new_dual (ADTangent.__add__ a b h) h (pa + pb)%float (ta + tb)%float ∧
  returns_new_dual (ADTangent.__sub__ a b h) h (pa - pb)%float (ta - tb)%float ∧
  returns_new_dual (ADTangent.__mul__ a b h) h
    (pa * pb)%float (pa * tb + ta * pb)%float.
Proof.
  intros (ax & adx & Ha & Hax & Hadx) (bx & bdx & Hb & Hbx & Hbdx).
  split; [|split].
  - rewrite (add_on_instances h a b _ _ _ _ Ha Hb).
    float_arith Add Hax Hbx x Hx Hfx. float_arith Add Hadx Hbdx dx Hdx Hfdx.
    rewrite Hx, Hdx. now apply new_returns_dual.
  - rewrite (sub_on_instances h a b _ _ _ _ Ha Hb).
    float_arith Sub Hax Hbx x Hx Hfx. float_arith Sub Hadx Hbdx dx Hdx Hfdx.
    rewrite Hx, Hdx. now apply new_returns_dual.
  - rewrite (mul_on_instances h a b _ _ _ _ Ha Hb).
    float_arith Mul Hax Hbx x Hx Hfx. float_arith Mul Hax Hbdx l Hl Hfl.
    float_arith Mul Hadx Hbx r Hr Hfr. float_arith Add Hfl Hfr dx Hdx Hfdx.
    rewrite Hx, Hl, Hr, Hdx. now apply new_returns_dual.
Qed.

Lemma returns_new_dual_inv (out : result value * heap) (h : heap) (p t : float) :
  returns_new_dual out h p t ->
  ∃ o : obj, out = (Ok (VRef (length h)), h ++ [o]) ∧
             dual_at (h ++ [o]) (VRef (length h)) p t.
Proof. now intros H. Qed.

Section Composition.
Context `{NumPy}.

(** X2. The driver's function on arbitrary float seeds: for dual numbers
    [x1 = (p1, t1)] with [p1] nonzero and [x2 = (p2, t2)], [f(x1, x2)]
    returns a dual number whose primal is [np.log(p1) + p1*p2 - np.sin(p2)]
    and whose tangent is
    [1/p1*t1 + (p1*t2 + t1*p2) - t2*np.cos(p2)], evaluated in this order in
    binary64; the seeds and every earlier instance stay as they were. *)
Theorem f_value_and_derivative (h : heap) (x1 x2 : value) (p1 t1 p2 t2 : float) :
  dual_at h x1 p1 t1 -> dual_at h x2 p2 t2 -> (p1 =? 0)%float = false ->
  ∃ (r : value) (h' : heap),
    f x1 x2 h = (Ok r, h') ∧ h `prefix_of` h' ∧
    dual_at h' r (log64 p1 + p1 * p2 - sin64 p2)%float
      (1 / p1 * t1 + (p1 * t2 + t1 * p2) - t2 * cos64 p2)%float.
Proof.
  intros H1 H2 Hp1.
  destruct H1 as (n1 & d1 & Hh1 & Hn1 & Hd1).
  destruct (holds_is_ref _ _ _ _ Hh1) as (l1 & ->).
  assert (Hx1 : dual_at h (VRef l1) p1 t1) by (exists n1, d1; auto).
  (* a = ADTangent.log(x1) *)
  destruct (log_returns h _ n1 d1 p1 t1 Hh1 Hn1 Hd1
              (eqb_0_divisible _ _ Hn1 Hp1)) as (oa & Ea & Ha).
  set (ha := h ++ [oa]) in *.
  (* b = x1 * x2 *)
  destruct (binary_on_duals ha (VRef l1) x2 p1 t1 p2 t2
              (dual_at_app _ _ _ _ _ Hx1) (dual_at_app _ _ _ _ _ H2))
    as (_ & _ & (ob & Eb & Hb)).
  set (hb := ha ++ [ob]) in *.
  (* c = a + b *)
  destruct (binary_on_duals hb (VRef (length h)) (VRef (length ha)) _ _ _ _
              (dual_at_app _ _ _ _ _ Ha) Hb)
    as ((oc & Ec & Hc) & _).
  set (hc := hb ++ [oc]) in *.
  (* d = ADTangent.sin(x2) *)
  pose proof (dual_at_app _ [oa; ob; oc] _ _ _ H2) as H2c.
  replace (h ++ [oa; ob; oc]) with hc in H2c
    by (unfold hc, hb, ha; now rewrite <- !app_assoc).
  destruct H2c as (n2 & d2 & Hh2 & Hn2 & Hd2).
  destruct (sin_returns hc x2 n2 d2 p2 t2 Hh2 Hn2 Hd2) as (od & Ed & Hd).
  set (hd := hc ++ [od]) in *.
  (* c - d *)
  destruct (binary_on_duals hd (VRef (length hb)) (VRef (length hc)) _ _ _ _
              (dual_at_app _ _ _ _ _ Hc) Hd)
    as (_ & (oe & Ee & He) & _).
  exists (VRef (length hd)), (hd ++ [oe]). split; [|split].
  - unfold f.
    rewrite (bind_ok _ _ h ha _ Ea).
    rewrite (proj2 (proj2 (binary_op_method l1 x2))).
    rewrite (bind_ok _ _ ha hb _ Eb).
    rewrite (proj1 (binary_op_method (length h) (VRef (length ha)))).
    rewrite (bind_ok _ _ hb hc _ Ec).
    rewrite (bind_ok _ _ hc hd _ Ed).
    rewrite (proj1 (proj2 (binary_op_method (length hb) (VRef (length hc))))).
    exact Ee.
  - unfold hd, hc, hb, ha. rewrite <- !app_assoc. now apply prefix_app_r.
  - exact He.
Qed.

(** X3. [log] composed with [sin]: for every float dual number [(p, t)],
    [ADTangent.log(ADTangent.sin(a))] returns a dual number with primal
    [np.log(np.sin(p))] and tangent [1/np.sin(p) * (t*np.cos(p))].  It
    raises nothing even where [np.sin(p)] is zero: the intermediate primal
    is a [numpy.float64], whose reciprocal is infinite instead of an
    error. *)
Theorem log_of_sin (h : heap) (a : value) (p t : float) :
  dual_at h a p t ->
  ∃ (r : value) (h' : heap),
    (s ← ADTangent.sin a; ADTangent.log s) h = (Ok r, h') ∧
    dual_at h' r (log64 (sin64 p)) (1 / sin64 p * (t * cos64 p))%float.
Proof.
  intros (nx & ndx & Ha & Hx & Hdx).
  pose proof (ufunc_float sin64 nx p Hx) as Hsin.
  pose proof (ufunc_float cos64 nx p Hx) as Hcos.
  assert (Hc : float_of (NpFloat64 (cos64 p)) = Some (cos64 p)) by reflexivity.
  float_arith Mul Hdx Hc dx Hm Hfdx.
  assert (Es : ADTangent.sin a h
               = (Ok (VRef (length h)), h ++ [instance (NpFloat64 (sin64 p)) dx])).
  { unfold ADTangent.sin, np.sin, np.cos. repeat run_step. apply new_spec. }
  destruct (log_returns (h ++ [instance (NpFloat64 (sin64 p)) dx])
              (VRef (length h)) (NpFloat64 (sin64 p)) dx (sin64 p) _
              (holds_new _ _ _) eq_refl Hfdx I) as (o & El & Hl).
  eexists _, _. split.
  - rewrite (bind_ok _ _ _ _ _ Es). exact El.
  - exact Hl.
Qed.
End Composition.

(** ** The instances an evaluation creates *)

Lemma bind_unchanged_or_constructed {A : Type} (m : M A) (k : A -> M value) (h : heap) :
  read_only m ->
  (∀ a : A, unchanged_or_constructed h (k a h)) ->
  unchanged_or_constructed h ((m ≫= k) h).
Proof.
  intros Hm Hk. unfold mbind, M_bind. specialize (Hm h).
  destruct (m h) as [[a|e] h']; cbn in Hm; subst h'.
  - apply Hk.
  - left. split; [reflexivity|]. intros l. discriminate.
Qed.

Ltac constructed_steps :=
  repeat (apply bind_unchanged_or_constructed;
          [ first [apply getattr_read_only | apply lift_read_only] | intros ? ]);
  first [ right; eexists _, _; apply new_spec
        | left; split; [reflexivity | intros ?; discriminate] ].

Section Constructed.
Context `{NumPy}.

Lemma methods_construct (self other : value) (h : heap) :
  unchanged_or_constructed h (ADTangent.__add__ self other h) ∧
  unchanged_or_constructed h (ADTangent.__sub__ self other h) ∧
  unchanged_or_constructed h (ADTangent.__mul__ self other h) ∧
  unchanged_or_constructed h (ADTangent.log self h) ∧
  unchanged_or_constructed h (ADTangent.sin self h).
Proof.
  unfold ADTangent.__add__, ADTangent.__sub__, ADTangent.__mul__,
    ADTangent.log, ADTangent.sin.
  destruct other as [[n|g|g]|l|c|]; repeat split; constructed_steps.
Qed.

Lemma binary_op_constructs (op : binop) (a b : value) (h : heap) :
  unchanged_or_constructed h (binary_op op a b h).
Proof.
  destruct a as [m|l|c|].
  - left. destruct b as [n|k|d|]; try (split; [reflexivity | intros ?; discriminate]).
    cbn [binary_op]. unfold mbind, M_bind, lift.
    destruct (py_arith op m n); split; try reflexivity; intros ?; discriminate.
  - destruct (methods_construct (VRef l) b h) as (Hadd & Hsub & Hmul & _).
    destruct op.
    + now rewrite (proj1 (binary_op_method _ _)).
    + now rewrite (proj1 (proj2 (binary_op_method _ _))).
    + now rewrite (proj2 (proj2 (binary_op_method _ _))).
    + rewrite binary_op_truediv. left. split; [reflexivity | intros ?; discriminate].
  - left. split; [reflexivity | intros ?; discriminate].
  - left. split; [reflexivity | intros ?; discriminate].
Qed.

Lemma instance_initialised (x dx : num) : initialised (instance x dx).
Proof.
  split.
  - exists x. unfold instance. rewrite lookup_insert_ne by discriminate.
    apply lookup_insert_eq.
  - exists dx. apply lookup_insert_eq.
Qed.

Lemma constructed_keeps_invariant (h : heap) (out : result value * heap) :
  unchanged_or_constructed h out -> well_formed h ->
  well_formed out.2 ∧ ∀ v, out.1 = Ok v -> bound out.2 v.
Proof.
  intros [[Hh Hr] | (x & dx & ->)] Hwf; cbn.
  - rewrite Hh. split; [exact Hwf|].
    intros [n|l|c|] Hv; cbn; auto. now apply Hr in Hv.
  - split.
    + apply Forall_app. split; [exact Hwf|].
      constructor; [apply instance_initialised | constructor].
    + intros v [= <-]. cbn. exists (instance x dx). now apply list_lookup_middle.
Qed.

Lemma bound_in_prefix (h h' : heap) (env : list value) :
  h `prefix_of` h' -> bound_in h env -> bound_in h' env.
Proof.
  intros P Hb. unfold bound_in in *. eapply Forall_impl; [exact Hb|].
  intros [n|l|c|]; cbn; auto.
  intros (o & Hl). exists o. eauto using prefix_lookup_Some.
Qed.

Lemma bound_prefix (h h' : heap) (v : value) :
  h `prefix_of` h' -> bound h v -> bound h' v.
Proof.
  intros P. destruct v as [n|l|c|]; cbn; auto.
  intros (o & Hl). exists o. eauto using prefix_lookup_Some.
Qed.

(** X4. Evaluation keeps the heap well formed.  Started in a heap whose
    instances all have both attributes, with variables bound to existing
    instances, the evaluation of any expression ends (normally or in an
    exception) in a heap whose instances all have both attributes, and an
    instance it returns exists in that heap. *)
Theorem eval_keeps_instances_initialised (e : expr) (env : list value) (h : heap) :
  well_formed h -> bound_in h env ->
  well_formed (eval env e h).2 ∧
  ∀ v : value, (eval env e h).1 = Ok v -> bound (eval env e h).2 v.
Proof.
  revert h. induction e as [i|c|op l IHl r IHr|e IH|e IH]; intros h Hwf Henv;
    cbn [eval].
  - destruct (env !! i) as [v|] eqn:Ei; cbn.
    + split; [exact Hwf|]. intros w [= <-].
      pose proof (Forall_lookup_1 _ _ _ _ Henv Ei) as Hv. exact Hv.
    + split; [exact Hwf|]. intros w. discriminate.
  - split; [exact Hwf|]. now intros w [= <-].
  - destruct (IHl h Hwf Henv) as (Hwf1 & Hb1).
    pose proof (eval_extends env l h) as P1.
    unfold mbind, M_bind.
    destruct (eval env l h) as [[a|ex] h1]; cbn in *; [|split; [exact Hwf1 | discriminate]].
    destruct (IHr h1 Hwf1 (bound_in_prefix _ _ _ P1 Henv)) as (Hwf2 & Hb2).
    destruct (eval env r h1) as [[b|ex] h2]; cbn in *; [|split; [exact Hwf2 | discriminate]].
    exact (constructed_keeps_invariant h2 _ (binary_op_constructs op a b h2) Hwf2).
  - destruct (IH h Hwf Henv) as (Hwf1 & Hb1).
    unfold mbind, M_bind.
    destruct (eval env e h) as [[a|ex] h1]; cbn in *; [|split; [exact Hwf1 | discriminate]].
    destruct (methods_construct a a h1) as (_ & _ & _ & Hlog & _).
    exact (constructed_keeps_invariant h1 _ Hlog Hwf1).
  - destruct (IH h Hwf Henv) as (Hwf1 & Hb1).
    unfold mbind, M_bind.
    destruct (eval env e h) as [[a|ex] h1]; cbn in *; [|split; [exact Hwf1 | discriminate]].
    destruct (methods_construct a a h1) as (_ & _ & _ & _ & Hsin).
    exact (constructed_keeps_invariant h1 _ Hsin Hwf1).
Qed.
End Constructed.

(** ** The exceptions an evaluation can end in *)

Lemma bind_raises_only {A B : Type} (P : exc_class -> Prop) (m : M A) (k : A -> M B) :
  raises_only P m -> (∀ a, raises_only P (k a)) -> raises_only P (m ≫= k).
Proof.
  intros Hm Hk h e. unfold mbind, M_bind. specialize (Hm h).
  destruct (m h) as [[a|e'] h'] eqn:E; cbn in *.
  - apply Hk.
  - intros [= <-]. now apply Hm.
Qed.

Lemma getattr_raises (v : value) (name : string) :
  raises_only primitive_error (getattr v name).
Proof.
  intros h e. unfold getattr, primitive_error.
  destruct v as [n|l|c|]; cbn; try (intros [= <-]; tauto).
  destruct (h !! l) as [o|]; [|intros [= <-]; tauto].
  destruct (o !! name); cbn; [discriminate | intros [= <-]; tauto].
Qed.

Lemma py_arith_raises (op : binop) (a b : num) (e : exc_class) :
  py_arith op a b = Raise e -> e = ZeroDivisionError ∨ e = OverflowError.
Proof.
  unfold py_arith, int_to_float, pyfloat_op, npfloat_op, int_op, mbind, result_bind.
  destruct op, a as [m|f|f], b as [n|g|g];
    repeat match goal with
    | |- context [is_infinity ?z] => destruct (is_infinity z)
    | |- context [(?z =? 0)%Z] => destruct (z =? 0)%Z
    | |- context [(?z =? 0)%float] => destruct (z =? 0)%float
    end; intros [= <-] || discriminate; tauto.
Qed.

Lemma lift_arith_raises (op : binop) (a b : num) :
  raises_only primitive_error (lift (py_arith op a b)).
Proof.
  intros h e. unfold lift, primitive_error. cbn. intros E.
  apply py_arith_raises in E. tauto.
Qed.

Lemma lift_ufunc_raises (loop : float -> float) (a : num) :
  raises_only primitive_error (lift (ufunc loop a)).
Proof.
  intros h e. unfold lift, ufunc, primitive_error. cbn.
  destruct a as [n|f|f]; try discriminate.
  destruct (_ && _); [discriminate | intros [= <-]; tauto].
Qed.

Lemma new_raises (x dx : num) : raises_only primitive_error (ADTangent.new x dx).
Proof. intros h e. rewrite new_spec. discriminate. Qed.

Lemma ret_raises {A : Type} (a : A) : raises_only primitive_error (mret a : M A).
Proof. intros h e. discriminate. Qed.

Ltac raises_steps :=
  repeat (apply bind_raises_only;
          [ first [ apply getattr_raises | apply lift_arith_raises
                  | apply lift_ufunc_raises ]
          | intros ? ]);
  first [apply new_raises | apply ret_raises].

Section Exceptions.
Context `{NumPy}.

Lemma methods_raise (self other : value) :
  raises_only primitive_error (ADTangent.__add__ self other) ∧
  raises_only primitive_error (ADTangent.__sub__ self other) ∧
  raises_only primitive_error (ADTangent.__mul__ self other) ∧
  raises_only primitive_error (ADTangent.log self) ∧
  raises_only primitive_error (ADTangent.sin self).
Proof.
  unfold ADTangent.__add__, ADTangent.__sub__, ADTangent.__mul__,
    ADTangent.log, ADTangent.sin, np.log, np.sin, np.cos.
  destruct other as [[n|g|g]|l|c|]; repeat split; raises_steps.
Qed.

Lemma binary_op_raises (op : binop) (a b : value) :
  raises_only primitive_error (binary_op op a b).
Proof.
  destruct a as [m|l|c|].
  - destruct b as [n|k|d|];
      try (intros h e [= <-]; unfold primitive_error; tauto).
    cbn [binary_op]. apply bind_raises_only; [apply lift_arith_raises|].
    intros r. apply ret_raises.
  - destruct (methods_raise (VRef l) b) as (Hadd & Hsub & Hmul & _).
    destruct op.
    + now rewrite (proj1 (binary_op_method _ _)).
    + now rewrite (proj1 (proj2 (binary_op_method _ _))).
    + now rewrite (proj2 (proj2 (binary_op_method _ _))).
    + intros h e. rewrite binary_op_truediv. intros [= <-].
      unfold primitive_error. tauto.
  - intros h e [= <-]. unfold primitive_error. tauto.
  - intros h e [= <-]. unfold primitive_error. tauto.
Qed.

Lemma eval_raises (env : list value) (e : expr) :
  raises_only (fun x => primitive_error x ∨ (x = NameError ∧ ¬ closed (length env) e))
    (eval env e).
Proof.
  induction e as [i|c|op l IHl r IHr|e IH|e IH]; cbn [eval closed].
  - intros h x. destruct (env !! i) as [v|] eqn:Ei; [discriminate|].
    intros [= <-]. right. split; [reflexivity|].
    apply lookup_ge_None in Ei. lia.
  - intros h x. discriminate.
  - apply bind_raises_only.
    { intros h x Hx. destruct (IHl h x Hx) as [?|[? ?]]; [now left | right; tauto]. }
    intros a. apply bind_raises_only.
    { intros h x Hx. destruct (IHr h x Hx) as [?|[? ?]]; [now left | right; tauto]. }
    intros b h x Hx. left. exact (binary_op_raises op a b h x Hx).
  - apply bind_raises_only; [exact IH|].
    intros a h x Hx. left.
    destruct (methods_raise a a) as (_ & _ & _ & Hlog & _). exact (Hlog h x Hx).
  - apply bind_raises_only; [exact IH|].
    intros a h x Hx. left.
    destruct (methods_raise a a) as (_ & _ & _ & _ & Hsin). exact (Hsin h x Hx).
Qed.

(** X5. No evaluation raises [NotImplementedError]: the class never has a
    [raise], so that exception object is only ever handed back as a value.
    The exceptions of an evaluation are those of the arithmetic and of the
    attribute reads ([ZeroDivisionError], [OverflowError], [TypeError],
    [AttributeError]), and [NameError] when, and only when, the expression
    uses a variable the environment does not bind. *)
Theorem eval_exceptions (e : expr) (env : list value) (h : heap) (x : exc_class) :
  (eval env e h).1 = Raise x ->
  x ≠ NotImplementedError ∧ (closed (length env) e -> x ≠ NameError) ∧
  (primitive_error x ∨ x = NameError).
Proof.
  intros Hx. destruct (eval_raises env e h x Hx) as [Hp | [-> Hc]].
  - split; [|split; [intros _|now left]]; unfold primitive_error in Hp; intros ->;
      destruct Hp as [?|[?|[?|?]]]; discriminate.
  - split; [discriminate | split; [tauto | now right]].
Qed.
End Exceptions.

Lemma eval_exceptions_witness :
  (@eval numpy_table [VRef 0; VRef 1] (BinOp TrueDiv (Var 0) (Var 1)) two_seeds).1
    = Raise TypeError ∧
  TypeError ≠ NotImplementedError ∧
  (closed 2 (BinOp TrueDiv (Var 0) (Var 1)) -> TypeError ≠ NameError) ∧
  (primitive_error TypeError ∨ TypeError = NameError).
Proof.
  split; [reflexivity|].
  apply (@eval_exceptions numpy_table (BinOp TrueDiv (Var 0) (Var 1))
           [VRef 0; VRef 1] two_seeds TypeError).
  reflexivity.
Defined.

(** ** How many instances an evaluation creates *)

Section Allocation.
Context `{NumPy}.

Lemma constructed_grows_by_one (h : heap) (out : result value * heap) :
  unchanged_or_constructed h out ->
  ∃ k : heap, out.2 = h ++ k ∧ length k ≤ 1.
Proof.
  intros [[Hh _] | (x & dx & ->)].
  - exists []. rewrite app_nil_r. split; [exact Hh | cbn; lia].
  - exists [instance x dx]. split; [reflexivity | cbn; lia].
Qed.

(** X6. An evaluation creates at most one instance per operation and
    keeps no other record: the final heap is the initial one followed by at
    most [operations e] new instances, whether the evaluation returns or
    raises. *)
Theorem eval_allocates_at_most_one_per_operation
    (e : expr) (env : list value) (h : heap) :
  ∃ k : heap, (eval env e h).2 = h ++ k ∧ length k ≤ operations e.
Proof.
  revert h. induction e as [i|c|op l IHl r IHr|e IH|e IH]; intros h;
    cbn [eval operations].
  - exists []. rewrite app_nil_r. split; [|cbn; lia]. now destruct (env !! i).
  - exists []. rewrite app_nil_r. split; [reflexivity | cbn; lia].
  - destruct (IHl h) as (k1 & E1 & L1). unfold mbind, M_bind.
    destruct (eval env l h) as [[a|x] h1]; cbn in E1; subst h1.
    2: { exists k1. split; [reflexivity | lia]. }
    destruct (IHr (h ++ k1)) as (k2 & E2 & L2).
    destruct (eval env r (h ++ k1)) as [[b|x] h2]; cbn in E2; subst h2.
    2: { exists (k1 ++ k2). rewrite app_assoc, length_app. split; [reflexivity | lia]. }
    destruct (constructed_grows_by_one _ _ (binary_op_constructs op a b ((h ++ k1) ++ k2)))
      as (k3 & E3 & L3).
    exists (k1 ++ k2 ++ k3). rewrite E3, !length_app, <- !app_assoc.
    split; [reflexivity | lia].
  - destruct (IH h) as (k1 & E1 & L1). unfold mbind, M_bind.
    destruct (eval env e h) as [[a|x] h1]; cbn in E1; subst h1.
    2: { exists k1. split; [reflexivity | lia]. }
    destruct (methods_construct a a (h ++ k1)) as (_ & _ & _ & Hlog & _).
    destruct (constructed_grows_by_one _ _ Hlog) as (k3 & E3 & L3).
    exists (k1 ++ k3). rewrite E3, length_app, <- app_assoc.
    split; [reflexivity | lia].
  - destruct (IH h) as (k1 & E1 & L1). unfold mbind, M_bind.
    destruct (eval env e h) as [[a|x] h1]; cbn in E1; subst h1.
    2: { exists k1. split; [reflexivity | lia]. }
    destruct (methods_construct a a (h ++ k1)) as (_ & _ & _ & _ & Hsin).
    destruct (constructed_grows_by_one _ _ Hsin) as (k3 & E3 & L3).
    exists (k1 ++ k3). rewrite E3, length_app, <- app_assoc.
    split; [reflexivity | lia].
Qed.

(** X7. An infix operator yields an instance only in the cases the class
    provides for: the operator is [+], [-] or [*], the left operand is an
    instance, and the right operand is an instance or a float.  A constant
    on the left, an [int], [None] or a class object on either side, and
    every division end in an exception or in a value that is no
    instance. *)
Theorem binary_op_yields_instance_only_if
    (op : binop) (a b : value) (h h' : heap) (l : nat) :
  binary_op op a b h = (Ok (VRef l), h') ->
  op ≠ TrueDiv ∧
  ADTangent.isinstance_ADTangent a = true ∧
  (ADTangent.isinstance_ADTangent b = true ∨ ADTangent.isinstance_float b = true).
Proof.
  intros E. destruct a as [m|la|c|]; try discriminate.
  - destruct b as [n|k|d|]; try discriminate.
    cbn [binary_op] in E. unfold mbind, M_bind, lift in E.
    destruct (py_arith op m n); discriminate.
  - split; [|split; [reflexivity|]].
    + intros ->. now rewrite binary_op_truediv in E.
    + destruct b as [[n|g|g]|k|d|]; cbn; auto;
        destruct op; try (now rewrite binary_op_truediv in E);
        (rewrite (proj1 (binary_op_method _ _)) in E
         || rewrite (proj1 (proj2 (binary_op_method _ _))) in E
         || rewrite (proj2 (proj2 (binary_op_method _ _))) in E);
        discriminate.
Qed.
End Allocation.

Lemma binary_op_yields_instance_only_if_witness :
  @binary_op numpy_table Mul (VRef 0) (VRef 1) two_seeds
    = (Ok (VRef 2), two_seeds ++ [instance (PyFloat 10) (PyFloat 5)]) ∧
  Mul ≠ TrueDiv ∧
  ADTangent.isinstance_ADTangent (VRef 0) = true ∧
  (ADTangent.isinstance_ADTangent (VRef 1) = true
   ∨ ADTangent.isinstance_float (VRef 1) = true).
Proof.
  assert (E : @binary_op numpy_table Mul (VRef 0) (VRef 1) two_seeds
              = (Ok (VRef 2), two_seeds ++ [instance (PyFloat 10) (PyFloat 5)]))
    by (vm_compute; reflexivity).
  split; [exact E|].
  exact (@binary_op_yields_instance_only_if numpy_table Mul (VRef 0) (VRef 1)
           two_seeds (two_seeds ++ [instance (PyFloat 10) (PyFloat 5)]) 2 E).
Defined.

(** ** Construction and attribute reads *)

(** X8. Reading back a freshly constructed instance: after
    [v = ADTangent(x, dx)], [v.x] is [x] and [v.dx] is [dx], for all
    numbers [x] and [dx] and in every heap; the construction adds exactly
    that instance. *)
Theorem constructor_round_trip (x dx : num) (h : heap) :
  (v ← ADTangent.new x dx;
   a ← getattr v "x";
   b ← getattr v "dx";
   mret (a, b)) h
  = (Ok (x, dx), h ++ [instance x dx]).
Proof.
  rewrite (bind_ok _ _ _ _ _ (new_spec x dx h)).
  rewrite (bind_ok _ _ _ _ _ (getattr_x _ _ _ _ (holds_new x dx h))).
  rewrite (bind_ok _ _ _ _ _ (getattr_dx _ _ _ _ (holds_new x dx h))).
  reflexivity.
Qed.

(** ** Errors of the binary methods on instances *)

(** X11. Arithmetic between two instances fails in one way only: [a + b],
    [a - b] and [a * b] on instances with numeric attributes raise no
    exception other than [OverflowError] (an [int] too large for a float
    meeting a float). *)
Theorem binary_methods_raise_only_overflow
    (h : heap) (a b : value) (ax adx bx bdx : num) (e : exc_class) :
  holds h a ax adx -> holds h b bx bdx ->
  (ADTangent.__add__ a b h).1 = Raise e ∨
  (ADTangent.__sub__ a b h).1 = Raise e ∨
  (ADTangent.__mul__ a b h).1 = Raise e ->
  e = OverflowError.
Proof.
  intros Ha Hb.
  rewrite (add_on_instances h a b _ _ _ _ Ha Hb),
          (sub_on_instances h a b _ _ _ _ Ha Hb),
          (mul_on_instances h a b _ _ _ _ Ha Hb).
  intros [E | [E | E]];
    repeat match type of E with
    | context [match py_arith ?op ?u ?w with _ => _ end] =>
        let F := fresh "F" in
        destruct (py_arith op u w) eqn:F;
        [ | apply py_arith_raises_overflow in F; [|discriminate];
            cbn in E; congruence ]
    end; rewrite new_spec in E; discriminate.
Qed.

Lemma binary_methods_raise_only_overflow_witness :
  (ADTangent.__add__ (VRef 0) (VRef 1)
     [instance (PyInt (2 ^ 1024)) (PyInt 1); instance (PyFloat 5) (PyInt 0)]).1
    = Raise OverflowError ∧
  OverflowError = OverflowError.
Proof.
  assert (E : (ADTangent.__add__ (VRef 0) (VRef 1)
                 [instance (PyInt (2 ^ 1024)) (PyInt 1);
                  instance (PyFloat 5) (PyInt 0)]).1 = Raise OverflowError)
    by (vm_compute; reflexivity).
  split; [exact E|].
  apply (binary_methods_raise_only_overflow
           [instance (PyInt (2 ^ 1024)) (PyInt 1); instance (PyFloat 5) (PyInt 0)]
           (VRef 0) (VRef 1) (PyInt (2 ^ 1024)) (PyInt 1) (PyFloat 5) (PyInt 0)
           OverflowError).
  - apply holds_instance; reflexivity.
  - apply holds_instance; reflexivity.
  - left. exact E.
Defined.

(** ** Integer seeds: exact derivatives *)

Lemma weighted_add (f g : nat -> Z) (ts : list Z) :
  ∀ j, weighted (fun i => f i + g i)%Z j ts = (weighted f j ts + weighted g j ts)%Z.
Proof. induction ts as [|t ts IH]; intros j; cbn; [reflexivity|]. rewrite IH. lia. Qed.

Lemma weighted_sub (f g : nat -> Z) (ts : list Z) :
  ∀ j, weighted (fun i => f i - g i)%Z j ts = (weighted f j ts - weighted g j ts)%Z.
Proof. induction ts as [|t ts IH]; intros j; cbn; [reflexivity|]. rewrite IH. lia. Qed.

Lemma weighted_product_rule (f g : nat -> Z) (u w : Z) (ts : list Z) :
  ∀ j, weighted (fun i => u * g i + f i * w)%Z j ts
       = (u * weighted g j ts + weighted f j ts * w)%Z.
Proof. induction ts as [|t ts IH]; intros j; cbn; [lia|]. rewrite IH. lia. Qed.

Lemma weighted_unit (i : nat) (ts : list Z) :
  ∀ j, j ≤ i ->
    weighted (fun k => if decide (i = k) then 1 else 0)%Z j ts
    = default 0%Z (ts !! (i - j)).
Proof.
  induction ts as [|t ts IH]; intros j Hj; cbn [weighted].
  - now rewrite lookup_nil.
  - destruct (decide (i = j)) as [->|Hne].
    + rewrite Nat.sub_diag. cbn [lookup list_lookup from_option id].
      assert (weighted (fun k => if decide (j = k) then 1 else 0)%Z (S j) ts = 0%Z) as ->.
      { clear. generalize (S j) (Nat.lt_succ_diag_r j). induction ts as [|t ts IH];
          intros k Hk; cbn [weighted]; [reflexivity|].
        destruct (decide (j = k)); [lia|]. rewrite IH by lia. lia. }
      lia.
    + rewrite IH by lia. replace (i - j) with (S (i - S j)) by lia.
      cbn [lookup list_lookup]. now rewrite Z.mul_0_r, Z.add_0_l.
Qed.

Lemma holds_prefix (h h' : heap) (v : value) (nx ndx : num) :
  h `prefix_of` h' -> holds h v nx ndx -> holds h' v nx ndx.
Proof.
  intros P (l & o & -> & Hl & Hx & Hdx). exists l, o.
  split; [reflexivity|]. split; [eauto using prefix_lookup_Some|]. now split.
Qed.

Lemma integer_seeds_prefix (h h' : heap) (env : list value) (ρ : list (Z * Z)) :
  h `prefix_of` h' -> integer_seeds h env ρ -> integer_seeds h' env ρ.
Proof.
  intros P Hs. unfold integer_seeds in *. eapply Forall2_impl; [exact Hs|].
  intros v pt. now apply holds_prefix.
Qed.

Section Polynomials.
Context `{NumPy}.

(** A binary operator on two instances with integer attributes: exact
    integer arithmetic, by the sum and product rules. *)
Lemma binary_op_on_integers (op : binop) (h : heap) (a b : value) (pa ta pb tb : Z) :
  op ≠ TrueDiv ->
  holds h a (PyInt pa) (PyInt ta) -> holds h b (PyInt pb) (PyInt tb) ->
  ∃ p t : Z,
    binary_op op a b h = (Ok (VRef (length h)), h ++ [instance (PyInt p) (PyInt t)]) ∧
    match op with
    | Add => p = (pa + pb)%Z ∧ t = (ta + tb)%Z
    | Sub => p = (pa - pb)%Z ∧ t = (ta - tb)%Z
    | Mul => p = (pa * pb)%Z ∧ t = (pa * tb + ta * pb)%Z
    | TrueDiv => False
    end.
Proof.
  intros Hop Ha Hb. destruct (holds_is_ref _ _ _ _ Ha) as (la & ->).
  destruct op; [| | |congruence].
  - rewrite (proj1 (binary_op_method _ _)), (add_on_instances h _ _ _ _ _ _ Ha Hb).
    cbn. rewrite new_spec. eauto.
  - rewrite (proj1 (proj2 (binary_op_method _ _))),
      (sub_on_instances h _ _ _ _ _ _ Ha Hb).
    cbn. rewrite new_spec. eauto.
  - rewrite (proj2 (proj2 (binary_op_method _ _))),
      (mul_on_instances h _ _ _ _ _ _ Ha Hb).
    cbn. rewrite new_spec. eauto.
Qed.

(** X12. On integer seeds the derivative is exact.  For a polynomial
    expression (variables, [+], [-], [*]) whose variables are instances
    with integer primals [ps] and integer tangents [ts], the evaluation
    returns an instance whose primal is the value of the polynomial at
    [ps] and whose tangent is its derivative at [ps] along [ts], the sum of
    [ts_j] times the partial derivative in [x_j]. *)
Theorem polynomial_derivative_is_exact
    (e : expr) (env : list value) (ρ : list (Z * Z)) (h : heap) :
  polynomial e -> closed (length env) e -> integer_seeds h env ρ ->
  ∃ (r : value) (h' : heap),
    eval env e h = (Ok r, h') ∧ h `prefix_of` h' ∧
    holds h' r (PyInt (value_at (ρ.*1) e)) (PyInt (directional (ρ.*1) (ρ.*2) e)).
Proof.
  revert h. induction e as [i|c|op l IHl r IHr|e IH|e IH];
    intros h Hpoly Hcl Hs; cbn [polynomial closed] in *; try contradiction.
  - unfold integer_seeds in Hs.
    destruct (lookup_lt_is_Some_2 env i Hcl) as (v & Ev).
    destruct (Forall2_lookup_l _ _ _ i v Hs Ev) as ((p & t) & Eρ & Hv).
    exists v, h. cbn [eval]. rewrite Ev. split; [reflexivity|]. split; [reflexivity|].
    cbn [value_at]. unfold directional. cbn [partial].
    rewrite weighted_unit by lia. rewrite Nat.sub_0_r, !list_lookup_fmap, Eρ.
    exact Hv.
  - destruct Hpoly as (Hop & Hpl & Hpr). destruct Hcl as (Hcl_l & Hcl_r).
    destruct (IHl h Hpl Hcl_l Hs) as (a & h1 & E1 & P1 & Ha).
    destruct (IHr h1 Hpr Hcl_r (integer_seeds_prefix _ _ _ _ P1 Hs))
      as (b & h2 & E2 & P2 & Hb).
    destruct (binary_op_on_integers op h2 a b _ _ _ _ Hop
                (holds_prefix _ _ _ _ _ P2 Ha) Hb) as (p & t & E3 & Hpt).
    exists (VRef (length h2)), (h2 ++ [instance (PyInt p) (PyInt t)]).
    split; [|split].
    + cbn [eval]. rewrite (bind_ok _ _ _ _ _ E1), (bind_ok _ _ _ _ _ E2). exact E3.
    + transitivity h1; [exact P1|]. transitivity h2; [exact P2|].
      now apply prefix_app_r.
    + unfold directional.
      destruct op; try contradiction; destruct Hpt as (-> & ->);
        cbn [value_at partial].
      * rewrite weighted_add. apply holds_new.
      * rewrite weighted_sub. apply holds_new.
      * rewrite weighted_product_rule. apply holds_new.
Qed.
End Polynomials.

Lemma polynomial_derivative_is_exact_witness :
  ∃ (r : value) (h' : heap),
    @eval numpy_table [VRef 0; VRef 1]
      (BinOp Sub (BinOp Mul (Var 0) (Var 1)) (BinOp Mul (Var 0) (Var 0)))
      [instance (PyInt 3) (PyInt 1); instance (PyInt 7) (PyInt 0)]
    = (Ok r, h') ∧
    [instance (PyInt 3) (PyInt 1); instance (PyInt 7) (PyInt 0)] `prefix_of` h' ∧
    holds h' r (PyInt 12) (PyInt 1).
Proof.
  apply (@polynomial_derivative_is_exact numpy_table
           (BinOp Sub (BinOp Mul (Var 0) (Var 1)) (BinOp Mul (Var 0) (Var 0)))
           [VRef 0; VRef 1] [(3, 1); (7, 0)]%Z).
  - cbn. repeat split; discriminate.
  - cbn. lia.
  - repeat constructor; apply holds_instance; reflexivity.
Defined.

Lemma f_value_and_derivative_witness :
  ∃ (r : value) (h' : heap),
    @f numpy_table (VRef 0) (VRef 1) two_seeds = (Ok r, h') ∧
    two_seeds `prefix_of` h' ∧
    dual_at h' r
      (@log64 numpy_table 2 + 2 * 5 - @sin64 numpy_table 5)%float
      (1 / 2 * 1 + (2 * 0 + 1 * 5) - 0 * @cos64 numpy_table 5)%float.
Proof.
  apply (@f_value_and_derivative numpy_table two_seeds (VRef 0) (VRef 1)
           2%float 1%float 5%float 0%float).
  - eapply dual_at_instance; reflexivity.
  - eapply dual_at_instance; reflexivity.
  - reflexivity.
Defined.

Lemma log_of_sin_witness :
  ∃ (r : value) (h' : heap),
    (s ← @ADTangent.sin numpy_table (VRef 0); @ADTangent.log numpy_table s)
      (one_dual 0 1) = (Ok r, h') ∧
    dual_at h' r
      (@log64 numpy_table (@sin64 numpy_table 0))
      (1 / @sin64 numpy_table 0 * (1 * @cos64 numpy_table 0))%float.
Proof.
  apply (@log_of_sin numpy_table (one_dual 0 1) (VRef 0) 0%float 1%float).
  eapply dual_at_instance; reflexivity.
Defined.

Lemma eval_keeps_instances_initialised_witness :
  well_formed (@eval numpy_table [VRef 0; VRef 1] f_expr two_seeds).2 ∧
  ∀ v : value,
    (@eval numpy_table [VRef 0; VRef 1] f_expr two_seeds).1 = Ok v ->
    bound (@eval numpy_table [VRef 0; VRef 1] f_expr two_seeds).2 v.
Proof.
  apply (@eval_keeps_instances_initialised numpy_table f_expr
           [VRef 0; VRef 1] two_seeds).
  - repeat constructor; eexists; reflexivity.
  - repeat constructor; eexists; reflexivity.
Defined.

(** ** The rendering *)

Lemma pretty_N_go_app (x : N) : ∀ s t : string,
  pretty_N_go x s +:+ t = pretty_N_go x (s +:+ t).
Proof.
  induction (N.lt_wf_0 x) as [x _ IH]; intros s t.
  destruct (decide (x = 0)%N) as [->|Hx]; [now rewrite !pretty_N_go_0|].
  rewrite (pretty_N_go_step x s), (pretty_N_go_step x (s +:+ t)) by lia.
  rewrite IH by (apply N.div_lt; lia). reflexivity.
Qed.

Lemma digit_of_pretty_N_char (d : N) :
  (d < 10)%N ->
  digit_of (pretty_N_char d) = Some d ∧ Ascii.eqb (pretty_N_char d) "." = false.
Proof.
  intros Hd.
  assert (d = 0 ∨ d = 1 ∨ d = 2 ∨ d = 3 ∨ d = 4 ∨ d = 5 ∨ d = 6 ∨ d = 7
          ∨ d = 8 ∨ d = 9)%N as Hc by lia.
  repeat (destruct Hc as [-> | Hc]; [split; reflexivity|]).
  subst. split; reflexivity.
Qed.

Lemma read_decimal_digit (acc : N) (frac : option nat) (d : N) (s : string) :
  (d < 10)%N ->
  read_decimal acc frac (String (pretty_N_char d) s)
  = read_decimal (10 * acc + d) (S <$> frac) s.
Proof.
  intros Hd. destruct (digit_of_pretty_N_char d Hd) as (Hdig & Hdot).
  cbn [read_decimal]. now rewrite Hdot, Hdig.
Qed.

(** Reading the digits the printer wrote: the accumulator is shifted by
    as many places as there are digits and the number is added. *)
Lemma read_decimal_pretty_N_go (x : N) : ∀ s : string,
  ∃ k : N, ∀ acc : N,
    read_decimal acc None (pretty_N_go x s)
    = read_decimal (acc * 10 ^ k + x) None s.
Proof.
  induction (N.lt_wf_0 x) as [x _ IH]; intros s.
  destruct (decide (x = 0)%N) as [->|Hx].
  - exists 0%N. intros acc. rewrite pretty_N_go_0. f_equal. lia.
  - rewrite pretty_N_go_step by lia.
    destruct (IH (x / 10)%N (N.div_lt x 10 ltac:(lia) eq_refl)
                (String (pretty_N_char (x mod 10)) s)) as (k & Hk).
    exists (k + 1)%N. intros acc. rewrite Hk.
    rewrite read_decimal_digit by (apply N.mod_lt; lia).
    cbn [fmap option_fmap option_map]. f_equal.
    rewrite N.pow_add_r, N.pow_1_r.
    pose proof (N.div_mod x 10 ltac:(lia)). lia.
Qed.

Lemma read_decimal_pretty (n : N) (s : string) :
  read_decimal 0 None (pretty n +:+ s) = read_decimal n None s.
Proof.
  unfold pretty, pretty_N. destruct (decide (n = 0)%N) as [->|Hn].
  - reflexivity.
  - rewrite pretty_N_go_app.
    destruct (read_decimal_pretty_N_go n ("" +:+ s)) as (k & Hk).
    rewrite Hk. reflexivity.
Qed.

Lemma read_decimal_four_digits (n r : N) :
  (r < 10000)%N ->
  read_decimal n None ("." +:+ four_digits r)
  = Some ((n * 10000 + r)%N, Some 4).
Proof.
  intros Hr. unfold four_digits.
  change (read_decimal n None ("." +:+ ?t)) with (read_decimal n (Some 0) t).
  rewrite !read_decimal_digit by (apply N.mod_lt; lia).
  cbn [read_decimal fmap option_fmap option_map]. do 2 f_equal.
  zify. Z.to_euclidean_division_equations. lia.
Qed.

(** The text written for [n] ten-thousandths reads back as [n / 10000]. *)
Lemma read_fixed_fixed4 (s : bool) (n : N) :
  read_fixed (sign_text s +:+ fixed4 n)
  = Some (inject_Z (cond_Zopp s (Z.of_N n)) / inject_Z (10 ^ 4))%Q.
Proof.
  assert (Hbody : read_decimal 0 None (fixed4 n) = Some (n, Some 4)).
  { unfold fixed4. rewrite read_decimal_pretty.
    rewrite read_decimal_four_digits by (apply N.mod_lt; lia).
    do 2 f_equal. pose proof (N.div_mod n 10000 ltac:(lia)). lia. }
  unfold read_fixed. destruct s; cbn [sign_text].
  - change ("-" +:+ fixed4 n) with (String "-" (fixed4 n)).
    cbn match. rewrite Ascii.eqb_refl. now rewrite Hbody.
  - change ("" +:+ fixed4 n) with (fixed4 n).
    destruct (fixed4 n) as [|c t] eqn:E; [discriminate|].
    destruct (Ascii.eqb c "-") eqn:Ec.
    + apply Ascii.eqb_eq in Ec. subst c. exfalso.
      unfold fixed4, pretty, pretty_N in E.
      destruct (decide (n / 10000 = 0)%N); [discriminate|].
      rewrite pretty_N_go_app in E.
      now apply pretty_N_go_ne_dash in E.
    + now rewrite Hbody.
Qed.

Lemma div_nearest_even_spec (a d : Z) :
  (0 <= a)%Z -> (0 < d)%Z ->
  (0 <= div_nearest_even a d)%Z ∧
  (- d <= 2 * (div_nearest_even a d * d - a) <= d)%Z.
Proof.
  intros Ha Hd. unfold div_nearest_even.
  pose proof (Z.div_mod a d ltac:(lia)) as Hdiv.
  pose proof (Z.mod_pos_bound a d Hd) as Hmod.
  pose proof (Z.div_pos a d Ha Hd) as Hq.
  destruct (Z.compare_spec (2 * (a mod d)) d) as [E|E|E];
    [destruct (Z.even (a / d))| |]; nia.
Qed.

Lemma ten_thousandths_nonneg (m : positive) (e : Z) : (0 <= ten_thousandths m e)%Z.
Proof.
  unfold ten_thousandths. destruct (Z.leb_spec 0 e) as [He|He].
  - pose proof (Z.pow_pos_nonneg 2 e ltac:(lia) He). nia.
  - apply div_nearest_even_spec; [lia|]. apply Z.pow_pos_nonneg; lia.
Qed.

(** The rounding of [.4f]: the number written is within half a
    ten-thousandth of the exact value [m * 2^e]. *)
Lemma ten_thousandths_accuracy (m : positive) (e : Z) :
  (Qabs (inject_Z (ten_thousandths m e) / inject_Z (10 ^ 4)
         - inject_Z (Zpos m) * 2 ^ e) <= 1 # 20000)%Q.
Proof.
  unfold ten_thousandths. destruct (Z.leb_spec 0 e) as [He|He].
  - rewrite !inject_Z_mult, (Zpower_Qpower 2 e He).
    assert (E0 : (inject_Z (Z.pos m) * inject_Z 2 ^ e * inject_Z 10000
                  / inject_Z (10 ^ 4) - inject_Z (Z.pos m) * 2 ^ e == 0)%Q).
    { change (inject_Z (10 ^ 4)) with (inject_Z 10000).
      change (inject_Z 2) with 2%Q. field; discriminate. }
    rewrite E0. discriminate.
  - set (d := (2 ^ (- e))%Z).
    assert (Hd : (0 < d)%Z) by (apply Z.pow_pos_nonneg; lia).
    destruct (div_nearest_even_spec (Zpos m * 10000) d ltac:(lia) Hd) as (_ & Hlo & Hhi).
    set (n := div_nearest_even (Zpos m * 10000) d) in *.
    assert (HD : (inject_Z 0 < inject_Z d)%Q) by (rewrite <- Zlt_Qlt; exact Hd).
    change (inject_Z 0) with 0%Q in HD.
    assert (Epow : (2 ^ e == / inject_Z d)%Q).
    { replace e with (- - e)%Z by lia. rewrite Qpower_opp.
      unfold d. rewrite (Zpower_Qpower 2 (- e)) by lia. reflexivity. }
    rewrite Epow.
    apply Qabs_Qle_condition.
    assert (Hlo' : (- inject_Z d <= 2 * (inject_Z n * inject_Z d - inject_Z (Zpos m) * 10000))%Q).
    { rewrite <- !inject_Z_mult, <- (inject_Z_opp d).
      change 2%Q with (inject_Z 2). change 10000%Q with (inject_Z 10000).
      rewrite <- !inject_Z_mult.
      unfold Qminus. rewrite <- inject_Z_opp, <- inject_Z_plus.
      rewrite <- inject_Z_mult, <- Zle_Qle. exact Hlo. }
    assert (Hhi' : (2 * (inject_Z n * inject_Z d - inject_Z (Zpos m) * 10000) <= inject_Z d)%Q).
    { rewrite <- !inject_Z_mult.
      change 2%Q with (inject_Z 2). change 10000%Q with (inject_Z 10000).
      rewrite <- !inject_Z_mult.
      unfold Qminus. rewrite <- inject_Z_opp, <- inject_Z_plus.
      rewrite <- inject_Z_mult, <- Zle_Qle. exact Hhi. }
    change (inject_Z (10 ^ 4)) with 10000%Q.
    assert (Efield : ((inject_Z n / 10000 - inject_Z (Z.pos m) * / inject_Z d) * inject_Z d
                      == inject_Z n * inject_Z d * (1 # 10000) - inject_Z (Z.pos m))%Q).
    { field. intros E0. rewrite E0 in HD. discriminate. }
    split.
    + apply (Qmult_le_r _ _ (inject_Z d) HD).
      rewrite Efield. clear Efield Epow.
      set (ND := (inject_Z n * inject_Z d)%Q) in *. clearbody ND. lra.
    + apply (Qmult_le_r _ _ (inject_Z d) HD).
      rewrite Efield. clear Efield Epow.
      set (ND := (inject_Z n * inject_Z d)%Q) in *. clearbody ND. lra.
Qed.

(** What [.4f] writes for a finite float reads back within half a
    ten-thousandth of its exact value. *)
Lemma format_4f_reads_back (p : float) (q : Q) :
  F2Q p = Some q ->
  ∃ q' : Q, read_fixed (format_4f_float p) = Some q' ∧ (Qabs (q' - q) <= 1 # 20000)%Q.
Proof.
  unfold F2Q, format_4f_float. destruct (Prim2SF p) as [s|s| |s m e]; try discriminate.
  - intros [= <-]. eexists. split; [apply read_fixed_fixed4|].
    destruct s; vm_compute; discriminate.
  - intros [= <-]. eexists. split; [apply read_fixed_fixed4|].
    rewrite Z2N.id by apply ten_thousandths_nonneg.
    pose proof (ten_thousandths_accuracy m e) as Hacc.
    destruct s; cbn [cond_Zopp]; [|exact Hacc].
    set (P := (2 ^ e)%Q) in *.
    assert (E : (inject_Z (- ten_thousandths m e) / inject_Z (10 ^ 4) - inject_Z (- Z.pos m) * P
                 == - (inject_Z (ten_thousandths m e) / inject_Z (10 ^ 4) - inject_Z (Z.pos m) * P))%Q).
    { rewrite !inject_Z_opp. change (inject_Z (10 ^ 4)) with 10000%Q. field. }
    rewrite E, Qabs_opp. exact Hacc.
Qed.

Section Rendering.
Context `{Builtins}.

Lemma str_read_only (self : value) : read_only (Render.__str__ self).
Proof.
  intros h. unfold Render.__str__, mbind, M_bind.
  pose proof (getattr_read_only self "x" h) as Hx.
  destruct (getattr self "x" h) as [[sx|e] h1]; cbn in Hx; subst h1; [|reflexivity].
  unfold lift. destruct (format_4f sx) as [v|e]; [|reflexivity].
  pose proof (getattr_read_only self "dx" h) as Hdx.
  destruct (getattr self "dx" h) as [[sdx|e] h1]; cbn in Hdx; subst h1; [|reflexivity].
  destruct (format_plain sdx) as [g|e]; reflexivity.
Qed.

Lemma format_plain_float (n : num) (t : float) :
  float_of n = Some t -> format_plain n = Ok (float_repr t).
Proof. destruct n; intros [= <-]; reflexivity. Qed.

Lemma format_plain_int (z : Z) :
  exceeds_str_digits z = false -> format_plain (PyInt z) = Ok (pretty z).
Proof. intros Hz. cbn [format_plain]. now rewrite Hz. Qed.

Lemma format_plain_raises (n : num) (e : exc_class) :
  format_plain n = Raise e ->
  e = ValueError ∧ ∃ z : Z, n = PyInt z ∧ exceeds_str_digits z = true.
Proof.
  destruct n as [z|f|f]; cbn [format_plain]; try discriminate.
  destruct (exceeds_str_digits z) eqn:Hz; [|discriminate].
  intros [= <-]. split; [reflexivity|]. now exists z.
Qed.

Lemma str_on_float (h : heap) (a : value) (nx ndx : num) (p : float) (g : string) :
  holds h a nx ndx -> float_of nx = Some p -> format_plain ndx = Ok g ->
  Render.__str__ a h
  = (Ok ("value:" +:+ format_4f_float p +:+ ", grad:" +:+ g), h).
Proof.
  intros Ha Hp Hg. unfold Render.__str__.
  assert (Hf : format_4f nx = Ok (format_4f_float p))
    by (destruct nx; simplify_eq/=; reflexivity).
  repeat run_step. reflexivity.
Qed.

(** X9. The rendered value is accurate to four decimals.  For an instance
    whose primal is a finite float [p] and whose tangent has the plain
    rendering [<g>] (the interpreter's [repr] of a float tangent, the
    decimal digits of an [int] tangent that is within the interpreter's
    limit on digits), [__str__] returns the text [value:<s>, grad:<g>]
    where [<s>], read back as a decimal, is within 0.00005 of the exact
    value of [p]; the heap is left as it was. *)
Theorem str_value_is_accurate (h : heap) (a : value) (nx ndx : num) (p : float) (q : Q)
    (g : string) :
  holds h a nx ndx -> float_of nx = Some p -> F2Q p = Some q ->
  format_plain ndx = Ok g ->
  ∃ (s : string) (q' : Q),
    Render.__str__ a h = (Ok ("value:" +:+ s +:+ ", grad:" +:+ g), h) ∧
    read_fixed s = Some q' ∧ (Qabs (q' - q) <= 1 # 20000)%Q.
Proof.
  intros Ha Hp Hq Hg. destruct (format_4f_reads_back p q Hq) as (q' & Hread & Hacc).
  exists (format_4f_float p), q'. split; [|split]; try assumption.
  exact (str_on_float h a nx ndx p g Ha Hp Hg).
Qed.

(** X10. [__str__] at the edges.  It never changes the heap.  On anything
    that is no instance it raises [AttributeError].  On an instance whose
    primal is an [int] too large for a float it raises [OverflowError]
    (before the tangent is read).  A primal that is nan or infinite is
    written [nan], [inf] or [-inf], followed by the plain rendering of the
    tangent where it has one.  On an instance whose primal can be formatted
    and whose tangent is an [int] with more decimal digits than the
    interpreter's limit it raises [ValueError]; that is the only way the
    tangent makes it fail, and an interpreter without the limit writes
    every [int]. *)
Theorem str_edge_cases (self : value) (h : heap) :
  (Render.__str__ self h).2 = h ∧
  (ADTangent.isinstance_ADTangent self = false ->
   Render.__str__ self h = (Raise AttributeError, h)) ∧
  (∀ (z : Z) (ndx : num),
     holds h self (PyInt z) ndx -> int_to_float z = Raise OverflowError ->
     Render.__str__ self h = (Raise OverflowError, h)) ∧
  (∀ (nx ndx : num) (p : float) (g : string),
     holds h self nx ndx -> float_of nx = Some p -> format_plain ndx = Ok g ->
     (p = nan ->
      Render.__str__ self h = (Ok ("value:nan, grad:" +:+ g), h)) ∧
     (p = infinity ->
      Render.__str__ self h = (Ok ("value:inf, grad:" +:+ g), h)) ∧
     (p = neg_infinity ->
      Render.__str__ self h = (Ok ("value:-inf, grad:" +:+ g), h))) ∧
  (∀ (nx : num) (z : Z) (v : string),
     holds h self nx (PyInt z) -> format_4f nx = Ok v ->
     (0 < int_max_str_digits)%Z -> (10 ^ int_max_str_digits <= Z.abs z)%Z ->
     Render.__str__ self h = (Raise ValueError, h)) ∧
  (∀ (nx ndx : num) (v : string) (e : exc_class),
     holds h self nx ndx -> format_4f nx = Ok v ->
     Render.__str__ self h = (Raise e, h) ->
     e = ValueError ∧
     ∃ z : Z, ndx = PyInt z ∧
       (0 < int_max_str_digits)%Z ∧ (10 ^ int_max_str_digits <= Z.abs z)%Z).
Proof.
  split; [apply str_read_only|]. split; [|split; [|split; [|split]]].
  - destruct self as [n|l|c|]; try discriminate; reflexivity.
  - intros z ndx Ha Hz. unfold Render.__str__. run_step.
    apply bind_raise. unfold lift. cbn [format_4f]. now rewrite Hz.
  - intros nx ndx p g Ha Hp Hg.
    rewrite (str_on_float h self nx ndx p g Ha Hp Hg).
    repeat split; intros ->; reflexivity.
  - intros nx z v Ha Hv Hd Hz. unfold Render.__str__. repeat run_step.
    apply bind_raise. unfold lift. cbn [format_plain]. unfold exceeds_str_digits.
    apply Z.ltb_lt in Hd. apply Z.leb_le in Hz. now rewrite Hd, Hz.
  - intros nx ndx v e Ha Hv. unfold Render.__str__. repeat run_step.
    destruct (format_plain ndx) as [g|e'] eqn:Hg.
    + erewrite bind_ok by reflexivity. discriminate.
    + rewrite (bind_raise _ _ h h e') by reflexivity.
      intros [= <-]. destruct (format_plain_raises ndx e' Hg) as (-> & z & -> & Hz).
      split; [reflexivity|]. exists z. split; [reflexivity|].
      unfold exceeds_str_digits in Hz. apply andb_true_iff in Hz as [Hd Hz].
      apply Z.ltb_lt in Hd. apply Z.leb_le in Hz. now split.
Qed.
End Rendering.

Lemma str_value_is_accurate_witness :
  ∃ (s : string) (q' : Q),
    @Render.__str__ repr_sample (VRef 0)
      [instance (NpFloat64 0x1.74ddc4f4dad32p+3) (NpFloat64 5.5)]
    = (Ok ("value:" +:+ s +:+ ", grad:" +:+ "5.5"),
       [instance (NpFloat64 0x1.74ddc4f4dad32p+3) (NpFloat64 5.5)]) ∧
    read_fixed s = Some q' ∧
    (Qabs (q' - (6559533082979634 # 562949953421312)) <= 1 # 20000)%Q.
Proof.
  apply (@str_value_is_accurate repr_sample
           [instance (NpFloat64 0x1.74ddc4f4dad32p+3) (NpFloat64 5.5)] (VRef 0)
           (NpFloat64 0x1.74ddc4f4dad32p+3) (NpFloat64 5.5)
           0x1.74ddc4f4dad32p+3%float).
  - apply holds_instance; reflexivity.
  - reflexivity.
  - reflexivity.
  - reflexivity.
Defined.

Lemma str_edge_cases_witness :
  @Render.__str__ repr_sample (VRef 0) [instance (PyFloat 2) (PyInt (10 ^ 4300))]
  = (Raise ValueError, [instance (PyFloat 2) (PyInt (10 ^ 4300))]).
Proof.
  destruct (@str_edge_cases repr_sample (VRef 0) [instance (PyFloat 2) (PyInt (10 ^ 4300))])
    as (_ & _ & _ & _ & Hlong & _).
  apply (Hlong (PyFloat 2) (10 ^ 4300)%Z (format_4f_float 2)).
  - apply holds_instance; reflexivity.
  - reflexivity.
  - reflexivity.
  - vm_compute. discriminate.
Defined.

(** ** What the driver prints *)

Lemma primal_text (l s : float) :
  In l (ulp_ball 4 ln_2) -> In s (ulp_ball 4 sin_5) ->
  format_4f_float (l + 10 - s)%float = "11.6521".
Proof. intros Hl Hs. each_float Hl; each_float Hs; vm_compute; reflexivity. Qed.

(** X13. The text the driver cell prints.  With NumPy accurate at the
    arguments the driver reaches, [str] of the driver's result is
    [value:11.6521, grad:] followed by the interpreter's rendering of the
    float 5.5: the line the notebook records as the output of the cell. *)
Theorem driver_prints `{NumPy} `{Builtins} :
  accurate_at_driver_points ->
  ((r ← driver (PyFloat 2) (PyInt 1) (PyFloat 5) (PyInt 0); Render.__str__ r) []).1
  = Ok ("value:11.6521, grad:" +:+ float_repr 5.5).
Proof.
  intros (Hlog & Hsin & Hcos).
  destruct driver_wrt_x1 as (h & Hrun & (nx & ndx & Hh & Hx & Hdx)).
  rewrite (bind_ok _ _ _ _ _ Hrun).
  rewrite (str_on_float h _ nx ndx _ _ Hh Hx (format_plain_float ndx _ Hdx)). cbn [fst].
  rewrite (primal_text _ _ Hlog Hsin), (tangent_wrt_x1 _ Hcos).
  reflexivity.
Qed.

Lemma driver_prints_witness :
  ((r ← @driver numpy_table (PyFloat 2) (PyInt 1) (PyFloat 5) (PyInt 0);
    @Render.__str__ repr_sample r) []).1
  = Ok "value:11.6521, grad:5.5".
Proof.
  apply (@driver_prints numpy_table repr_sample).
  repeat split; left; reflexivity.
Defined.
